(** * Nomis memory game (ATtiny85 firmware): model and verification

    The development follows the game file of the repository (the version
    with the IDLE / CPU / PLAYER state machine, [get_player_move] and
    [blink_leds]).  The firmware is compiled for AVR, where [int] is 16 bits
    wide: [uint16_t] is [unsigned int] and its arithmetic wraps modulo 2^16;
    [uint8_t] values wrap modulo 2^8 when they are stored.

    Integers are modelled as [Z] with the wrap-around written out, the
    [moves] array as a list of bytes indexed with stdpp's lookup and insert,
    the hardware (port B, the EEPROM word at address 46, the analog converter,
    the busy-wait delays) as a device record threaded through a small state
    monad, and an access outside the [moves] array as an explicit fault. *)

From Stdlib Require Import ZArith NArith Lia Bool List.
From stdpp Require Import base tactics option list numbers.

Local Open Scope Z_scope.

(** ** Machine integers *)

Definition u16 (x : Z) : Z := x mod 65536.
Definition u8 (x : Z) : Z := x mod 256.

(** ** Constants of the source *)

Definition MAX_PERIOD : Z := 32768.
Definition MULTIPLIER : Z := 513.
Definition C : Z := 1.
Definition MAX_MOVES : Z := 100.

(** [enum STATE { IDLE, CPU, PLAYER, LOSE }].  The variable [gamestate] is
    kept as an integer, so that values outside the enumeration can be
    talked about. *)
Definition IDLE : Z := 0.
Definition CPU : Z := 1.
Definition PLAYER : Z := 2.
Definition LOSE : Z := 3.

(** ** Pure functions *)

(** [return (lcg_previous*a + c) % m;] on [uint16_t] operands.  The only
    caller passes [m = MAX_PERIOD], which is not zero. *)
Definition rand_lcg (lcg_previous m a c : Z) : Z :=
  u16 (u16 (lcg_previous * a) + c) mod m.

(** The [switch] of [led_display]; the argument is converted to [uint8_t]
    at the call. *)
Definition led_display (state : Z) : Z :=
  match u8 state with
  | 1 => 3
  | 2 => 4
  | 4 => 6
  | 8 => 1
  | _ => 0
  end.

(** One generator step with the parameters [main] passes. *)
Definition lcg_step (x : Z) : Z := rand_lcg x MAX_PERIOD MULTIPLIER C.

(** [n] generator steps from [s]. *)
Definition lcg_iter (n : N) (s : Z) : Z := N.iter n lcg_step s.

(** The move stored by the CPU turn: [0x01 << (random >> 13)], truncated to
    the [uint8_t] array cell. *)
Definition move_of_random (random : Z) : Z :=
  u8 (Z.shiftl 1 (Z.shiftr random 13)).

(** ** Devices and the state monad of the helper procedures *)

Inductive event : Type :=
  | PortB (v : Z)
  | DelayMs (n : Z)
  | DelayUs (n : Z)
  | EepromWrite (addr v : Z).

(** Everything outside [main]'s own variables: the output register, the
    EEPROM word at address 46, the analog source ([adc_in k] is the result
    of the [k]-th conversion, [adc_pos] counts the conversions done so far),
    the [static] variables of [get_player_move] and [cascade_leds], and the
    log of port writes, delays and EEPROM writes, newest first. *)
Record hw : Type := Hw {
  PORTB : Z;
  eeprom : Z;
  adc_in : nat -> Z;
  adc_pos : nat;
  prev_move : Z;
  cascade_i : Z;
  cascade_up : Z;
  log : list event
}.

Definition io (A : Type) : Type := hw -> A * hw.

Definition ret {A} (a : A) : io A := fun h => (a, h).

Definition bind {A B} (m : io A) (k : A -> io B) : io B :=
  fun h => let r := m h in k (fst r) (snd r).

Declare Scope io_scope.
Delimit Scope io_scope with io.
Notation "x <-- m ;; k" := (bind m (fun x => k))
  (at level 20, m at level 99, k at level 200, only parsing) : io_scope.
Notation "m ;; k" := (bind m (fun _ => k))
  (at level 100, k at level 200, only parsing, right associativity) : io_scope.

Definition exec {A} (m : io A) (h : hw) : hw := snd (m h).

Definition emit (e : event) (h : hw) : hw :=
  Hw (PORTB h) (eeprom h) (adc_in h) (adc_pos h) (prev_move h)
     (cascade_i h) (cascade_up h) (e :: log h).

Definition write_portb (v : Z) : io unit := fun h =>
  (tt, Hw v (eeprom h) (adc_in h) (adc_pos h) (prev_move h)
          (cascade_i h) (cascade_up h) (PortB v :: log h)).

(** [PORTB |= v] and [PORTB &= v]. *)
Definition portb_or (v : Z) : io unit := fun h => write_portb (Z.lor (PORTB h) v) h.
Definition portb_and (v : Z) : io unit := fun h => write_portb (Z.land (PORTB h) v) h.

(** The macros [clear_display()] and [set_display(state)]. *)
Definition clear_display : io unit := portb_and 240.
Definition set_display (state : Z) : io unit := portb_or (led_display state).

Definition _delay_ms (n : Z) : io unit := fun h => (tt, emit (DelayMs n) h).
Definition _delay_us (n : Z) : io unit := fun h => (tt, emit (DelayUs n) h).

Definition eeprom_write_word (addr v : Z) : io unit := fun h =>
  (tt, Hw (PORTB h) v (adc_in h) (adc_pos h) (prev_move h)
          (cascade_i h) (cascade_up h) (EepromWrite addr v :: log h)).

(** [read_adc]: one conversion; the result register is 16 bits wide. *)
Definition read_adc : io Z := fun h =>
  (u16 (adc_in h (adc_pos h)),
   Hw (PORTB h) (eeprom h) (adc_in h) (S (adc_pos h)) (prev_move h)
      (cascade_i h) (cascade_up h) (log h)).

Definition set_prev_move (v : Z) : io unit := fun h =>
  (tt, Hw (PORTB h) (eeprom h) (adc_in h) (adc_pos h) v
          (cascade_i h) (cascade_up h) (log h)).

Definition set_cascade (i up : Z) : io unit := fun h =>
  (tt, Hw (PORTB h) (eeprom h) (adc_in h) (adc_pos h) (prev_move h)
          i up (log h)).

Fixpoint for_each {A} (l : list A) (body : A -> io unit) : io unit :=
  match l with
  | [] => ret tt
  | x :: l' => bind (body x) (fun _ => for_each l' body)
  end.

(** The C test [(raw >= lo) & (raw <= hi)]: bitwise and of two 0/1 values,
    taken as a condition. *)
Definition in_window (raw lo hi : Z) : bool :=
  negb (Z.land (Z.b2z (lo <=? raw)) (Z.b2z (raw <=? hi)) =? 0).

(** The chain of window tests of [get_player_move]. *)
Definition window_code (raw_move : Z) : Z :=
  if in_window raw_move 500 520 then 1
  else if in_window raw_move 600 620 then 2
  else if in_window raw_move 660 680 then 4
  else if in_window raw_move 710 730 then 8
  else 0.

Definition get_player_move : io Z := (
  raw_move <-- read_adc ;;
  let move := window_code raw_move in
  move <-- (fun h =>
              if move =? prev_move h
              then ret 0 h
              else (set_prev_move move ;; ret move) h) ;;
  _delay_us 1000 ;;
  ret move)%io.

(** [cascade_leds], with its two [static] variables. *)
Definition cascade_leds : io unit := (fun h =>
  let i := cascade_i h in
  let up := cascade_up h in
  (portb_or (led_display (Z.shiftl 1 i)) ;;
   _delay_ms 100 ;;
   portb_and 240 ;;
   _delay_ms 50 ;;
   let up' := if i =? 3 then 0 else if i =? 0 then 1 else up in
   set_cascade (if up' =? 0 then u16 (i - 1) else u16 (i + 1)) up') h)%io.

Definition blink_leds : io unit :=
  for_each (seqZ 0 100) (fun _ =>
    for_each (seqZ 0 4) (fun j =>
      set_display (Z.shiftl 1 j) ;;
      _delay_us 100 ;;
      clear_display ;;
      _delay_us 10))%io.

(** The sample the next conversion will return. *)
Definition next_sample (h : hw) : Z := u16 (adc_in h (adc_pos h)).

(** The sample the [k]-th conversion from now will return, and a sample
    held over the next [n] conversions. *)
Definition sample_at (h : hw) (k : nat) : Z := u16 (adc_in h (adc_pos h + k)).

Definition held (h : hw) (raw : Z) (n : nat) : Prop :=
  forall k, (k < n)%nat -> sample_at h k = raw.

(** ** [main] *)

(** The variables of [main] that live across loop iterations, and the
    global [gamestate], which only [main] reads and writes.  ([i] and
    [player_move] are assigned before each use.) *)
Record vars : Type := Vars {
  gamestate : Z;
  moves : list Z;
  cpu_counter : Z;
  player_counter : Z;
  random : Z
}.

(** An iteration either completes or accesses [moves] outside its
    [MAX_MOVES] cells, which C leaves undefined. *)
Inductive result (A : Type) : Type :=
  | Done (a : A)
  | OutOfBounds (index : Z).
Arguments Done {A} a.
Arguments OutOfBounds {A} index.

Definition rbind {A B} (m : result A) (k : A -> result B) : result B :=
  match m with
  | Done a => k a
  | OutOfBounds i => OutOfBounds i
  end.

Declare Scope result_scope.
Delimit Scope result_scope with result.
Notation "x <-- m ;; k" := (rbind m (fun x => k))
  (at level 20, m at level 99, k at level 200, only parsing) : result_scope.

(** [a[i]] as a value and [a[i] = v]. *)
Definition load (a : list Z) (i : Z) : result Z :=
  match a !! Z.to_nat i with
  | Some v => Done v
  | None => OutOfBounds i
  end.

Definition store (a : list Z) (i v : Z) : result (list Z) :=
  if decide (Z.to_nat i < length a)%nat
  then Done (<[Z.to_nat i := v]> a)
  else OutOfBounds i.

(** The body of [for (i = 0; i <= cpu_counter; i++)], over the values [i]
    takes. *)
Fixpoint playback (moves : list Z) (indices : list Z) (h : hw) : result hw :=
  match indices with
  | [] => Done h
  | i :: rest =>
      (m <-- load moves i ;;
       playback moves rest
         (exec (portb_or (led_display m) ;; _delay_ms 500 ;;
                portb_and 240 ;; _delay_ms 100)%io h))%result
  end.

(** The last [else] branch of the loop: flash LED 1 and LED 4. *)
Definition error_flash : io unit :=
  (portb_or (led_display 1) ;; _delay_ms 100 ;;
   portb_and 240 ;; _delay_ms 100 ;;
   portb_or (led_display 8) ;; _delay_ms 100 ;;
   portb_and 240 ;; _delay_ms 100)%io.

(** One iteration of [while (1)]. *)
Definition loop_body (s : vars * hw) : result (vars * hw) :=
  let v := fst s in
  let h := snd s in
  if gamestate v =? CPU then
    let random' := rand_lcg (random v) MAX_PERIOD MULTIPLIER C in
    let h1 := exec (eeprom_write_word 46 random') h in
    (moves' <-- store (moves v) (cpu_counter v) (move_of_random random') ;;
     h2 <-- playback moves' (seqZ 0 (cpu_counter v + 1)) h1 ;;
     Done (Vars PLAYER moves' (u16 (cpu_counter v + 1)) (player_counter v)
                random',
           exec (_delay_ms 10) h2))%result
  else if gamestate v =? PLAYER then
    let r := get_player_move h in
    let player_move := fst r in
    if player_move =? 0 then Done (v, exec clear_display (snd r))
    else
      let h1 := exec (set_display player_move ;; _delay_ms 50 ;;
                      clear_display ;; _delay_ms 50 ;;
                      set_display player_move ;; _delay_ms 50 ;;
                      clear_display)%io (snd r) in
      (m <-- load (moves v) (player_counter v) ;;
       if player_move =? m then
         if player_counter v =? u16 (cpu_counter v - 1) then
           Done (Vars CPU (moves v) (cpu_counter v) 0 (random v),
                 exec (_delay_ms 1000) h1)
         else
           Done (Vars (gamestate v) (moves v) (cpu_counter v)
                      (u16 (player_counter v + 1)) (random v), h1)
       else
         Done (Vars IDLE (moves v) 0 0 (random v),
               exec (blink_leds ;; _delay_ms 100 ;;
                     blink_leds ;; _delay_ms 500)%io h1))%result
  else if gamestate v =? IDLE then
    let random' := u16 (random v + 1) in
    let r := (eeprom_write_word 46 random' ;; cascade_leds ;; read_adc)%io h in
    if fst r >? 200 then
      Done (Vars CPU (moves v) (cpu_counter v) (player_counter v) random',
            exec (blink_leds ;; _delay_ms 100 ;;
                  blink_leds ;; _delay_ms 500)%io (snd r))
    else
      Done (Vars (gamestate v) (moves v) (cpu_counter v) (player_counter v)
                 random', snd r)
  else
    Done (v, exec error_flash h).

(** [n] iterations of the loop. *)
Fixpoint run (n : nat) (s : vars * hw) : result (vars * hw) :=
  match n with
  | O => Done s
  | S n' => rbind (loop_body s) (run n')
  end.

(** The state on entry to the loop: [seed] is the word found in the EEPROM,
    [junk] the initial contents of the uninitialised array [moves], [adc]
    the analog samples to come. *)
Definition boot (seed : Z) (junk : list Z) (adc : nat -> Z) : vars * hw :=
  (Vars IDLE junk 0 0 (u16 seed),
   exec (write_portb 0) (Hw 0 (u16 seed) adc O 0 0 1 [])).

Definition reachable (seed : Z) (junk : list Z) (adc : nat -> Z)
    (s : vars * hw) : Prop :=
  exists n, run n (boot seed junk adc) = Done s.

(** The four move codes. *)
Definition one_hot (m : Z) : Prop := m = 1 \/ m = 2 \/ m = 4 \/ m = 8.

(** What holds of the game variables between iterations, as long as no
    access has left the array. *)
Definition game_inv (v : vars) : Prop :=
  length (moves v) = Z.to_nat MAX_MOVES /\
  0 <= cpu_counter v <= MAX_MOVES /\
  (forall i, 0 <= i < cpu_counter v ->
     exists m, moves v !! Z.to_nat i = Some m /\ one_hot m) /\
  (gamestate v = IDLE \/ gamestate v = CPU \/ gamestate v = PLAYER) /\
  (gamestate v = PLAYER -> 0 <= player_counter v < cpu_counter v) /\
  (gamestate v <> PLAYER -> player_counter v = 0).

(** Consecutive polls of the classifier, results in order. *)
Fixpoint polls (n : nat) : io (list Z) :=
  match n with
  | O => ret []
  | S n' => (m <-- get_player_move ;; ms <-- polls n' ;; ret (m :: ms))%io
  end.

(** ** A player who never errs *)

(** A sample in the window of a move. *)
Definition press_of (move : Z) : Z :=
  if move =? 1 then 510 else if move =? 2 then 610
  else if move =? 4 then 670 else 720.

(** The first [n] moves the CPU turns generate from generator state
    [random]. *)
Fixpoint cpu_moves (n : nat) (random : Z) : list Z :=
  match n with
  | O => []
  | S n' =>
      let random' := lcg_step random in
      move_of_random random' :: cpu_moves n' random'
  end.

(** Round [k], after one idle tick from [seed]: press and release each of
    the first [k] moves. *)
Definition round_samples (seed : Z) (k : nat) : list Z :=
  flat_map (fun m => [press_of m; 0]) (cpu_moves k (u16 (u16 seed + 1))).

(** One activating sample, then [rounds] rounds replayed without a
    mistake. *)
Definition perfect_play (seed : Z) (rounds : nat) : list Z :=
  201 :: flat_map (round_samples seed) (seq 1 rounds).

Definition stream_of (samples : list Z) : nat -> Z :=
  fun k => nth k samples 0.

(** What a run is observed by: the game variables and the number of
    samples consumed, or the faulting index. *)
Definition summary (r : result (vars * hw)) : result (Z * Z * Z * Z) :=
  match r with
  | Done s =>
      Done (gamestate (fst s), cpu_counter (fst s), player_counter (fst s),
            Z.of_nat (adc_pos (snd s)))
  | OutOfBounds i => OutOfBounds i
  end.

(** ** The orbit of 0 under the generator, scanned *)

(** One scanning step: advance the generator and remember whether 0 has
    come back. *)
Definition scan_step (st : Z * bool) : Z * bool :=
  let y := lcg_step (fst st) in (y, snd st && negb (y =? 0)).

Definition scan (n : N) : Z * bool := N.iter n scan_step (0, true).

(** ** Observations on the devices *)

(** The values [led_display] can return: the four LED patterns and 0. *)
Definition led_pattern (v : Z) : Prop :=
  v = 0 \/ v = 1 \/ v = 3 \/ v = 4 \/ v = 6.

(** A logged port write shows one pattern or nothing; a logged EEPROM
    write goes to address 46. *)
Definition event_ok (e : event) : Prop :=
  match e with
  | PortB v => led_pattern v
  | EepromWrite addr _ => addr = 46
  | _ => True
  end.

Definition display_lit (h : hw) : Prop :=
  led_pattern (PORTB h) /\ Forall event_ok (log h).

Definition display_idle (h : hw) : Prop :=
  PORTB h = 0 /\ Forall event_ok (log h).

(** The devices other than port B and the log agree. *)
Definition same_devices (h h' : hw) : Prop :=
  eeprom h' = eeprom h /\ adc_in h' = adc_in h /\ adc_pos h' = adc_pos h /\
  prev_move h' = prev_move h /\ cascade_i h' = cascade_i h /\
  cascade_up h' = cascade_up h.

(** A procedure that only drives port B and waits. *)
Definition display_only (p : io unit) : Prop :=
  forall h, same_devices h (exec p h).

(** The EEPROM writes in a log, newest first, as (address, word). *)
Fixpoint eeprom_writes (l : list event) : list (Z * Z) :=
  match l with
  | [] => []
  | EepromWrite addr v :: l' => (addr, v) :: eeprom_writes l'
  | _ :: l' => eeprom_writes l'
  end.

(** A procedure that logs no EEPROM write. *)
Definition no_eeprom_write (p : io unit) : Prop :=
  forall h, eeprom_writes (log (exec p h)) = eeprom_writes (log h).

(** Busy-wait time in a log, in microseconds. *)
Fixpoint busy_us (l : list event) : Z :=
  match l with
  | [] => 0
  | DelayMs n :: l' => 1000 * n + busy_us l'
  | DelayUs n :: l' => n + busy_us l'
  | _ :: l' => busy_us l'
  end.

(** What the playback loop of the CPU turn logs for the moves [ms], oldest
    event first: each move lit for 500 ms, then dark for 100 ms. *)
Definition playback_frames (ms : list Z) : list event :=
  flat_map (fun m => [PortB (led_display m); DelayMs 500;
                      PortB 0; DelayMs 100]) ms.

(** The position of the idle animation after [n] calls of
    [cascade_leds]. *)
Definition cascade_after (n : nat) (h : hw) : hw :=
  Nat.iter n (exec cascade_leds) h.

(** ** Machine integers: bounds *)

Lemma u16_range x : 0 <= u16 x < 65536.
Proof. unfold u16. apply Z.mod_pos_bound. lia. Qed.

Lemma u8_range x : 0 <= u8 x < 256.
Proof. unfold u8. apply Z.mod_pos_bound. lia. Qed.

Lemma u16_small x : 0 <= x < 65536 -> u16 x = x.
Proof. intros H. unfold u16. apply Z.mod_small. lia. Qed.

Lemma u8_small x : 0 <= x < 256 -> u8 x = x.
Proof. intros H. unfold u8. apply Z.mod_small. lia. Qed.

(** ** The generator *)

(** C3.  With the parameters of [main], the 16-bit wrap-around of the
    product and of the sum is invisible: for every 16-bit state [s],
    [rand_lcg s 32768 513 1] is [(s * 513 + 1) mod 32768] over the
    integers. *)
Theorem rand_lcg_exact (s : Z) :
  0 <= s < 65536 ->
  rand_lcg s 32768 513 1 = (s * 513 + 1) mod 32768.
Proof.
  intros _. unfold rand_lcg, u16.
  rewrite Z.add_mod_idemp_l by lia.
  apply Z.mod_mod_divide. exists 2. reflexivity.
Qed.

Lemma rand_lcg_exact_witness :
  0 <= 40000 < 65536 /\ rand_lcg 40000 32768 513 1 = (40000 * 513 + 1) mod 32768.
Proof. split; [lia | apply (rand_lcg_exact 40000); lia]. Defined.

(** ** The display encoder *)

Ltac one_hot_cases x :=
  destruct (Z.eqb_spec x 1); [|destruct (Z.eqb_spec x 2);
    [|destruct (Z.eqb_spec x 4); [|destruct (Z.eqb_spec x 8)]]].

Lemma led_display_table (x : Z) :
  0 <= x < 256 ->
  led_display x =
    if x =? 1 then 3 else if x =? 2 then 4 else
    if x =? 4 then 6 else if x =? 8 then 1 else 0.
Proof.
  intros Hx. unfold led_display. rewrite u8_small by lia.
  destruct x as [|p|p]; try lia; [reflexivity|].
  do 4 (try (destruct p as [p|p|])); reflexivity.
Qed.

(** C8.  [led_display] on a [uint8_t]: the four one-hot codes give 0x03,
    0x04, 0x06 and 0x01 (pairwise distinct, non-zero, below 8); every other
    byte, zero and the multi-bit values included, gives 0. *)
Theorem led_display_total (state : Z) :
  0 <= state < 256 ->
  (state = 1 -> led_display state = 3) /\
  (state = 2 -> led_display state = 4) /\
  (state = 4 -> led_display state = 6) /\
  (state = 8 -> led_display state = 1) /\
  (state <> 1 -> state <> 2 -> state <> 4 -> state <> 8 ->
   led_display state = 0) /\
  (led_display state <> 0 -> 0 < led_display state < 8) /\
  (forall other, 0 <= other < 256 -> led_display other <> 0 ->
     led_display other = led_display state -> other = state).
Proof.
  intros Hs. rewrite (led_display_table state Hs).
  repeat split.
  1-4: intros ->; reflexivity.
  - intros N1 N2 N4 N8. one_hot_cases state; congruence.
  - one_hot_cases state; lia.
  - one_hot_cases state; lia.
  - intros other Ho. rewrite (led_display_table other Ho).
    one_hot_cases other; one_hot_cases state; lia.
Qed.

Lemma led_display_total_witness :
  led_display 4 = 6 /\ led_display 0 = 0 /\ led_display 3 = 0.
Proof.
  destruct (led_display_total 4 ltac:(lia)) as (_ & _ & H4 & _).
  destruct (led_display_total 0 ltac:(lia)) as (_ & _ & _ & _ & H0 & _).
  destruct (led_display_total 3 ltac:(lia)) as (_ & _ & _ & _ & H3 & _).
  split; [apply H4; reflexivity|].
  split; [apply H0; lia | apply H3; lia].
Defined.

(** ** The generator has full period *)

Lemma lcg_step_formula (x : Z) : lcg_step x = (x * 513 + 1) mod 32768.
Proof.
  unfold lcg_step, rand_lcg, u16, MAX_PERIOD, MULTIPLIER, C.
  rewrite Z.add_mod_idemp_l by lia.
  apply Z.mod_mod_divide. exists 2. reflexivity.
Qed.

Lemma lcg_step_range (x : Z) : 0 <= lcg_step x < 32768.
Proof. rewrite lcg_step_formula. apply Z.mod_pos_bound. lia. Qed.

(** 513 is invertible modulo 2^15, with inverse 32257. *)
Lemma lcg_step_inv (x : Z) :
  0 <= x < 32768 -> ((lcg_step x - 1) * 32257) mod 32768 = x.
Proof.
  intros Hx. rewrite lcg_step_formula.
  rewrite <- Z.mul_mod_idemp_l by lia.
  rewrite Zminus_mod_idemp_l.
  rewrite Z.mul_mod_idemp_l by lia.
  replace ((x * 513 + 1 - 1) * 32257) with (x + (x * 505) * 32768) by lia.
  rewrite Z.mod_add by lia. apply Z.mod_small. lia.
Qed.

Lemma lcg_step_inj (a b : Z) :
  0 <= a < 32768 -> 0 <= b < 32768 -> lcg_step a = lcg_step b -> a = b.
Proof.
  intros Ha Hb E.
  rewrite <- (lcg_step_inv a Ha), <- (lcg_step_inv b Hb), E. reflexivity.
Qed.

Lemma lcg_iter_succ (n : N) (s : Z) :
  lcg_iter (N.succ n) s = lcg_step (lcg_iter n s).
Proof. unfold lcg_iter. apply N.iter_succ. Qed.

Lemma lcg_iter_add (n m : N) (s : Z) :
  lcg_iter (n + m) s = lcg_iter n (lcg_iter m s).
Proof. unfold lcg_iter. apply N.iter_add. Qed.

Lemma lcg_iter_range (n : N) (s : Z) :
  0 <= s < 32768 -> 0 <= lcg_iter n s < 32768.
Proof.
  intros Hs. induction n as [|n IH] using N.peano_ind; [exact Hs|].
  rewrite lcg_iter_succ. apply lcg_step_range.
Qed.

Lemma lcg_iter_inj (n : N) (a b : Z) :
  0 <= a < 32768 -> 0 <= b < 32768 -> lcg_iter n a = lcg_iter n b -> a = b.
Proof.
  intros Ha Hb. induction n as [|n IH] using N.peano_ind; [auto|].
  rewrite !lcg_iter_succ. intros E. apply IH.
  apply lcg_step_inj; auto using lcg_iter_range.
Qed.

Lemma scan_succ (n : N) : scan (N.succ n) = scan_step (scan n).
Proof. unfold scan. apply N.iter_succ. Qed.

Lemma scan_sound (n : N) :
  fst (scan n) = lcg_iter n 0 /\
  (snd (scan n) = true ->
   forall k, (0 < k <= n)%N -> lcg_iter k 0 <> 0).
Proof.
  induction n as [|n [IHx IHok]] using N.peano_ind.
  - split; [reflexivity | intros _ k Hk; lia].
  - rewrite scan_succ. unfold scan_step; simpl fst; simpl snd.
    rewrite IHx, <- lcg_iter_succ. split; [reflexivity|].
    intros Hok k Hk. apply andb_prop in Hok as [Hok Hnz].
    destruct (N.eq_dec k (N.succ n)) as [->|Hne].
    + apply negb_true_iff, Z.eqb_neq in Hnz. exact Hnz.
    + apply IHok; [exact Hok | lia].
Qed.

Lemma scan_value : scan 32767 = (511, true).
Proof. vm_compute. reflexivity. Qed.

Lemma orbit0_no_early_return (k : N) :
  (0 < k < 32768)%N -> lcg_iter k 0 <> 0.
Proof.
  intros Hk. destruct (scan_sound 32767) as [_ H].
  apply H; [rewrite scan_value; reflexivity | lia].
Qed.

Lemma orbit0_return : lcg_iter 32768 0 = 0.
Proof.
  change 32768%N with (N.succ 32767). rewrite lcg_iter_succ.
  destruct (scan_sound 32767) as [<- _]. rewrite scan_value. reflexivity.
Qed.

Lemma orbit0_distinct (i j : N) :
  (i < j < 32768)%N -> lcg_iter i 0 <> lcg_iter j 0.
Proof.
  intros Hij E. apply (orbit0_no_early_return (j - i)); [lia|].
  apply (lcg_iter_inj i); [apply lcg_iter_range; lia | lia |].
  rewrite <- lcg_iter_add. replace (i + (j - i))%N with j by lia.
  symmetry. exact E.
Qed.

(** The first 32768 points of the orbit of 0, and the values they can
    take. *)
Lemma orbit0_covers (v : Z) :
  0 <= v < 32768 -> exists k : N, (k < 32768)%N /\ lcg_iter k 0 = v.
Proof.
  intros Hv.
  set (P := N.to_nat 32768).
  set (orbit := (fun k : nat => lcg_iter (N.of_nat k) 0) <$> seq 0 P).
  set (range := (fun k : nat => Z.of_nat k) <$> seq 0 P).
  assert (HP : N.of_nat P = 32768%N) by (subst P; apply N2Nat.id).
  assert (Hnd : NoDup orbit).
  { apply NoDup_fmap_2_strong; [|apply NoDup_seq].
    intros a b Ha%elem_of_seq Hb%elem_of_seq E.
    destruct (Nat.lt_trichotomy a b) as [Hlt|[Heq|Hgt]]; [|exact Heq|].
    - exfalso. apply (orbit0_distinct (N.of_nat a) (N.of_nat b)); [lia|exact E].
    - exfalso. apply (orbit0_distinct (N.of_nat b) (N.of_nat a)); [lia|].
      symmetry; exact E. }
  assert (Hsub : orbit ⊆+ range).
  { apply NoDup_submseteq; [exact Hnd|].
    intros x (k & -> & Hk%elem_of_seq)%list_elem_of_fmap.
    apply list_elem_of_fmap.
    pose proof (lcg_iter_range (N.of_nat k) 0 ltac:(lia)) as Hr.
    exists (Z.to_nat (lcg_iter (N.of_nat k) 0)). split; [lia|].
    apply elem_of_seq. lia. }
  assert (Hperm : orbit ≡ₚ range).
  { apply submseteq_length_Permutation; [exact Hsub|].
    subst orbit range. rewrite !length_fmap. reflexivity. }
  assert (Hin : v ∈ orbit).
  { rewrite Hperm. apply list_elem_of_fmap. exists (Z.to_nat v).
    split; [lia|]. apply elem_of_seq. lia. }
  apply list_elem_of_fmap in Hin as (k & -> & Hk%elem_of_seq).
  exists (N.of_nat k). split; [lia | reflexivity].
Qed.

(** C4.  Full period: from every seed [s] below 32768, the first 32768
    iterates of the generator are pairwise distinct and take every value
    below 32768, and the 32768-th iterate is [s] again. *)
Theorem lcg_full_period (s : Z) :
  0 <= s < 32768 ->
  (forall v, 0 <= v < 32768 ->
     exists n : N, (n < 32768)%N /\ lcg_iter n s = v) /\
  (forall i j : N, (i < j < 32768)%N -> lcg_iter i s <> lcg_iter j s) /\
  lcg_iter 32768 s = s.
Proof.
  intros Hs. destruct (orbit0_covers s Hs) as (k & Hk & <-).
  split; [|split].
  - intros v Hv. destruct (orbit0_covers v Hv) as (m & Hm & <-).
    destruct (N.le_gt_cases k m) as [Hle|Hgt].
    + exists (m - k)%N. split; [lia|].
      rewrite <- lcg_iter_add. f_equal. lia.
    + exists (32768 - k + m)%N. split; [lia|].
      rewrite <- lcg_iter_add.
      replace (32768 - k + m + k)%N with (m + 32768)%N by lia.
      rewrite lcg_iter_add, orbit0_return. reflexivity.
  - intros i j Hij E. rewrite <- !lcg_iter_add in E.
    apply (orbit0_no_early_return (j - i)); [lia|].
    apply (lcg_iter_inj (i + k)); [apply lcg_iter_range; lia | lia |].
    rewrite <- lcg_iter_add.
    replace (i + k + (j - i))%N with (j + k)%N by lia.
    symmetry. exact E.
  - rewrite <- lcg_iter_add.
    replace (32768 + k)%N with (k + 32768)%N by lia.
    rewrite lcg_iter_add, orbit0_return. reflexivity.
Qed.

Lemma lcg_full_period_witness :
  0 <= 12345 < 32768 /\
  ((forall v, 0 <= v < 32768 ->
      exists n : N, (n < 32768)%N /\ lcg_iter n 12345 = v) /\
   (forall i j : N, (i < j < 32768)%N ->
      lcg_iter i 12345 <> lcg_iter j 12345) /\
   lcg_iter 32768 12345 = 12345).
Proof. split; [lia | apply (lcg_full_period 12345); lia]. Defined.

(** ** The input classifier *)

Lemma in_window_spec (raw lo hi : Z) :
  in_window raw lo hi = true <-> lo <= raw <= hi.
Proof.
  unfold in_window.
  destruct (Z.leb_spec lo raw), (Z.leb_spec raw hi); simpl;
    split; intros; try lia; try discriminate; reflexivity.
Qed.

Lemma in_window_false (raw lo hi : Z) :
  in_window raw lo hi = false <-> ~ (lo <= raw <= hi).
Proof.
  rewrite <- in_window_spec. destruct (in_window raw lo hi); split; intros;
    try congruence; try discriminate; tauto.
Qed.

Lemma window_code_cases (raw : Z) :
  (500 <= raw <= 520 /\ window_code raw = 1) \/
  (600 <= raw <= 620 /\ window_code raw = 2) \/
  (660 <= raw <= 680 /\ window_code raw = 4) \/
  (710 <= raw <= 730 /\ window_code raw = 8) \/
  (~ (500 <= raw <= 520) /\ ~ (600 <= raw <= 620) /\
   ~ (660 <= raw <= 680) /\ ~ (710 <= raw <= 730) /\ window_code raw = 0).
Proof.
  unfold window_code.
  destruct (in_window raw 500 520) eqn:E1;
    [left; split; [apply in_window_spec, E1 | reflexivity]|].
  destruct (in_window raw 600 620) eqn:E2;
    [right; left; split; [apply in_window_spec, E2 | reflexivity]|].
  destruct (in_window raw 660 680) eqn:E3;
    [right; right; left; split; [apply in_window_spec, E3 | reflexivity]|].
  destruct (in_window raw 710 730) eqn:E4;
    [right; right; right; left; split; [apply in_window_spec, E4 | reflexivity]|].
  right; right; right; right.
  apply in_window_false in E1, E2, E3, E4. repeat split; assumption.
Qed.

(** What one call does to the devices: one conversion consumed, one delay
    logged, [prev_move] overwritten exactly when the code differs from it. *)
Lemma get_player_move_unfold (h : hw) :
  get_player_move h =
    let move := window_code (next_sample h) in
    if move =? prev_move h
    then (0, Hw (PORTB h) (eeprom h) (adc_in h) (S (adc_pos h)) (prev_move h)
                (cascade_i h) (cascade_up h) (DelayUs 1000 :: log h))
    else (move, Hw (PORTB h) (eeprom h) (adc_in h) (S (adc_pos h)) move
                   (cascade_i h) (cascade_up h) (DelayUs 1000 :: log h)).
Proof.
  unfold get_player_move, bind, read_adc, next_sample. simpl.
  destruct (window_code _ =? prev_move h); reflexivity.
Qed.

Lemma get_player_move_result (h : hw) :
  fst (get_player_move h) =
    (if window_code (next_sample h) =? prev_move h then 0
     else window_code (next_sample h)) /\
  prev_move (snd (get_player_move h)) = window_code (next_sample h) /\
  adc_pos (snd (get_player_move h)) = S (adc_pos h) /\
  adc_in (snd (get_player_move h)) = adc_in h.
Proof.
  rewrite get_player_move_unfold. simpl.
  destruct (Z.eqb_spec (window_code (next_sample h)) (prev_move h)) as [E|E];
    simpl; auto.
Qed.

(** C5.  The classification contract of [get_player_move]: the four
    windows give 0x01, 0x02, 0x04, 0x08 and everything else gives none;
    a code equal to the stored previous move is suppressed (none is
    returned, the stored move stays), any other code is returned and
    stored. *)
Theorem get_player_move_contract (h : hw) :
  let raw := next_sample h in
  let move := window_code raw in
  (500 <= raw <= 520 -> move = 1) /\
  (600 <= raw <= 620 -> move = 2) /\
  (660 <= raw <= 680 -> move = 4) /\
  (710 <= raw <= 730 -> move = 8) /\
  (~ (500 <= raw <= 520) -> ~ (600 <= raw <= 620) ->
   ~ (660 <= raw <= 680) -> ~ (710 <= raw <= 730) -> move = 0) /\
  (move = prev_move h ->
   fst (get_player_move h) = 0 /\
   prev_move (snd (get_player_move h)) = prev_move h) /\
  (move <> prev_move h ->
   fst (get_player_move h) = move /\
   prev_move (snd (get_player_move h)) = move).
Proof.
  intros raw move.
  destruct (get_player_move_result h) as (Hret & Hprev & _).
  fold raw in Hret, Hprev. fold move in Hret, Hprev.
  pose proof (window_code_cases raw) as Hcases. fold move in Hcases.
  split; [|split; [|split; [|split; [|split; [|split]]]]].
  1-4: intros Hin; destruct Hcases as [[? ?]|[[? ?]|[[? ?]|[[? ?]|(?&?&?&?&?)]]]];
       first [assumption | lia | tauto].
  - intros N1 N2 N3 N4.
    destruct Hcases as [[? ?]|[[? ?]|[[? ?]|[[? ?]|(?&?&?&?&?)]]]];
      first [assumption | tauto].
  - intros Heq. rewrite Hret, Hprev.
    apply Z.eqb_eq in Heq as Heqb. rewrite Heqb. auto.
  - intros Hne. rewrite Hret, Hprev.
    apply Z.eqb_neq in Hne as Hneb. rewrite Hneb. auto.
Qed.

Lemma get_player_move_contract_witness :
  let h := Hw 0 0 (fun _ => 610) O 1 0 1 [] in
  fst (get_player_move h) = 2 /\ prev_move (snd (get_player_move h)) = 2.
Proof.
  intros h.
  destruct (get_player_move_contract h) as (_ & H2 & _ & _ & _ & _ & Hne).
  assert (Hraw : 600 <= next_sample h <= 620) by (vm_compute; split; discriminate).
  rewrite (H2 Hraw) in Hne. apply Hne. simpl. lia.
Defined.

Lemma sample_at_0 (h : hw) : sample_at h 0 = next_sample h.
Proof. unfold sample_at, next_sample. rewrite Nat.add_0_r. reflexivity. Qed.

Lemma sample_at_next (h : hw) (k : nat) :
  sample_at (snd (get_player_move h)) k = sample_at h (S k).
Proof.
  destruct (get_player_move_result h) as (_ & _ & Hpos & Hin).
  unfold sample_at. rewrite Hpos, Hin. f_equal. f_equal. lia.
Qed.

Lemma polls_succ (n : nat) (h : hw) :
  polls (S n) h =
    (fst (get_player_move h) :: fst (polls n (snd (get_player_move h))),
     snd (polls n (snd (get_player_move h)))).
Proof. reflexivity. Qed.

Lemma polls_0 (h : hw) : polls 0 h = ([], h).
Proof. reflexivity. Qed.

Lemma held_next (h : hw) (raw : Z) (n : nat) :
  held h raw (S n) ->
  next_sample h = raw /\ held (snd (get_player_move h)) raw n.
Proof.
  intros H. split.
  - rewrite <- sample_at_0. apply H. lia.
  - intros k Hk. rewrite sample_at_next. apply H. lia.
Qed.

Lemma polls_held_suppressed (n : nat) : forall (h : hw) (raw : Z),
  held h raw n -> window_code raw = prev_move h ->
  fst (polls n h) = replicate n 0 /\
  prev_move (snd (polls n h)) = prev_move h.
Proof.
  induction n as [|n IH]; intros h raw Hheld Hcode; [split; reflexivity|].
  apply held_next in Hheld as [Hraw Hheld].
  destruct (get_player_move_result h) as (Hret & Hprev & _).
  rewrite Hraw in Hret, Hprev. rewrite Hcode, Z.eqb_refl in Hret.
  destruct (IH _ raw Hheld) as [IHret IHprev]; [congruence|].
  rewrite polls_succ. cbn [fst snd replicate].
  rewrite Hret, IHret, IHprev. split; congruence.
Qed.

Lemma window_code_numeric (raw : Z) :
  (500 <= raw <= 520 -> window_code raw = 1) /\
  (600 <= raw <= 620 -> window_code raw = 2) /\
  (660 <= raw <= 680 -> window_code raw = 4) /\
  (710 <= raw <= 730 -> window_code raw = 8) /\
  (~ (500 <= raw <= 520) -> ~ (600 <= raw <= 620) ->
   ~ (660 <= raw <= 680) -> ~ (710 <= raw <= 730) -> window_code raw = 0).
Proof.
  pose proof (window_code_cases raw) as Hcases.
  split; [|split; [|split; [|split]]].
  1-4: intros Hin; destruct Hcases as [[? ?]|[[? ?]|[[? ?]|[[? ?]|(?&?&?&?&?)]]]];
       first [assumption | lia | tauto].
  intros N1 N2 N3 N4.
  destruct Hcases as [[? ?]|[[? ?]|[[? ?]|[[? ?]|(?&?&?&?&?)]]]];
    first [assumption | tauto].
Qed.

Lemma polls_held_first (h : hw) (raw : Z) (n : nat) :
  held h raw (S n) ->
  fst (polls (S n) h) =
    (if window_code raw =? prev_move h then 0 else window_code raw)
    :: replicate n 0.
Proof.
  intros Hheld. apply held_next in Hheld as [Hraw Hheld].
  destruct (get_player_move_result h) as (Hret & Hprev & _).
  rewrite Hraw in Hret, Hprev.
  rewrite polls_succ. cbn [fst snd]. rewrite Hret. f_equal.
  apply (polls_held_suppressed n _ raw Hheld). congruence.
Qed.

(** C6.  Edge sensitivity over repeated polls.  A held sample whose code is
    the stored previous move gives none at every poll; so, from any state,
    a held sample gives none at the second and every later poll.  In
    numbers: a sample held in [500,520] gives 0x01 at the first poll (none
    if 0x01 was already the previous move) and none at every later poll,
    and likewise [600,620] for 0x02, [660,680] for 0x04 and [710,730] for
    0x08; a sample held outside the four windows gives none at every poll.
    A changed sample that falls in one of these windows while the previous
    move is another code always gives the code of its window, which is not
    none, and stores it as the previous move. *)
Theorem held_sample_reports_once :
  (forall (h : hw) (raw : Z) (n : nat),
     held h raw n -> window_code raw = prev_move h ->
     fst (polls n h) = replicate n 0 /\
     prev_move (snd (polls n h)) = prev_move h) /\
  (forall (h : hw) (raw : Z) (n : nat),
     held h raw (S n) ->
     fst (polls (S n) h) = fst (get_player_move h) :: replicate n 0) /\
  (forall h : hw,
     window_code (next_sample h) <> 0 ->
     window_code (next_sample h) <> prev_move h ->
     fst (get_player_move h) = window_code (next_sample h) /\
     fst (get_player_move h) <> 0 /\
     prev_move (snd (get_player_move h)) = window_code (next_sample h)) /\
  (forall (h : hw) (raw : Z) (n : nat),
     held h raw (S n) ->
     (500 <= raw <= 520 ->
      fst (polls (S n) h) =
        (if prev_move h =? 1 then 0 else 1) :: replicate n 0) /\
     (600 <= raw <= 620 ->
      fst (polls (S n) h) =
        (if prev_move h =? 2 then 0 else 2) :: replicate n 0) /\
     (660 <= raw <= 680 ->
      fst (polls (S n) h) =
        (if prev_move h =? 4 then 0 else 4) :: replicate n 0) /\
     (710 <= raw <= 730 ->
      fst (polls (S n) h) =
        (if prev_move h =? 8 then 0 else 8) :: replicate n 0) /\
     (~ (500 <= raw <= 520) -> ~ (600 <= raw <= 620) ->
      ~ (660 <= raw <= 680) -> ~ (710 <= raw <= 730) ->
      fst (polls (S n) h) = 0 :: replicate n 0)) /\
  (forall h : hw,
     (500 <= next_sample h <= 520 -> prev_move h <> 1 ->
      fst (get_player_move h) = 1 /\
      prev_move (snd (get_player_move h)) = 1) /\
     (600 <= next_sample h <= 620 -> prev_move h <> 2 ->
      fst (get_player_move h) = 2 /\
      prev_move (snd (get_player_move h)) = 2) /\
     (660 <= next_sample h <= 680 -> prev_move h <> 4 ->
      fst (get_player_move h) = 4 /\
      prev_move (snd (get_player_move h)) = 4) /\
     (710 <= next_sample h <= 730 -> prev_move h <> 8 ->
      fst (get_player_move h) = 8 /\
      prev_move (snd (get_player_move h)) = 8)).
Proof.
  split; [|split; [|split; [|split]]].
  - intros h raw n. apply polls_held_suppressed.
  - intros h raw n Hheld.
    apply held_next in Hheld as [Hraw Hheld].
    destruct (get_player_move_result h) as (_ & Hprev & _).
    rewrite polls_succ. cbn [fst snd]. f_equal.
    apply (polls_held_suppressed n _ raw Hheld). congruence.
  - intros h Hnz Hne.
    destruct (get_player_move_result h) as (Hret & Hprev & _).
    apply Z.eqb_neq in Hne as Hneb. rewrite Hneb in Hret.
    rewrite Hret. auto.
  - intros h raw n Hheld.
    pose proof (polls_held_first h raw n Hheld) as Hfirst.
    destruct (window_code_numeric raw) as (W1 & W2 & W4 & W8 & W0).
    split; [|split; [|split; [|split]]].
    + intros Hin. rewrite Hfirst, (W1 Hin), (Z.eqb_sym 1). reflexivity.
    + intros Hin. rewrite Hfirst, (W2 Hin), (Z.eqb_sym 2). reflexivity.
    + intros Hin. rewrite Hfirst, (W4 Hin), (Z.eqb_sym 4). reflexivity.
    + intros Hin. rewrite Hfirst, (W8 Hin), (Z.eqb_sym 8). reflexivity.
    + intros N1 N2 N4 N8. rewrite Hfirst, (W0 N1 N2 N4 N8).
      destruct (0 =? prev_move h); reflexivity.
  - intros h.
    destruct (get_player_move_result h) as (Hret & Hprev & _).
    destruct (window_code_numeric (next_sample h)) as (W1 & W2 & W4 & W8 & _).
    split; [|split; [|split]]; intros Hin Hne.
    + rewrite Hret, Hprev, (W1 Hin).
      destruct (Z.eqb_spec 1 (prev_move h)); [congruence | auto].
    + rewrite Hret, Hprev, (W2 Hin).
      destruct (Z.eqb_spec 2 (prev_move h)); [congruence | auto].
    + rewrite Hret, Hprev, (W4 Hin).
      destruct (Z.eqb_spec 4 (prev_move h)); [congruence | auto].
    + rewrite Hret, Hprev, (W8 Hin).
      destruct (Z.eqb_spec 8 (prev_move h)); [congruence | auto].
Qed.

Lemma held_sample_reports_once_witness :
  fst (polls 4 (Hw 0 0 (fun _ => 510) O 0 0 1 [])) = [1; 0; 0; 0] /\
  fst (polls 3 (Hw 0 0 (fun _ => 510) O 1 0 1 [])) = [0; 0; 0] /\
  fst (get_player_move (Hw 0 0 (fun _ => 610) O 1 0 1 [])) = 2 /\
  prev_move (snd (get_player_move (Hw 0 0 (fun _ => 610) O 1 0 1 []))) = 2.
Proof.
  destruct held_sample_reports_once as (_ & _ & _ & Hheld & Hchanged).
  destruct (Hheld (Hw 0 0 (fun _ => 510) O 0 0 1 []) 510 3%nat) as (H1 & _);
    [intros k Hk; reflexivity|].
  destruct (Hheld (Hw 0 0 (fun _ => 510) O 1 0 1 []) 510 2%nat) as (H1' & _);
    [intros k Hk; reflexivity|].
  destruct (Hchanged (Hw 0 0 (fun _ => 610) O 1 0 1 [])) as (_ & H2 & _).
  split; [apply H1; lia|].
  split; [apply H1'; lia|].
  apply H2; [vm_compute; split; discriminate | simpl; lia].
Defined.

(** C10.  A sample outside every window re-arms the classifier: with a
    button stored as previous move it returns none and stores 0, so the
    same button is reported again at its next press; press, release, press
    enters the same move twice. *)
Theorem release_rearms_classifier :
  (forall h : hw,
     window_code (next_sample h) = 0 -> prev_move h <> 0 ->
     fst (get_player_move h) = 0 /\
     prev_move (snd (get_player_move h)) = 0) /\
  (forall (h : hw) (b : Z),
     b <> 0 -> prev_move h = b ->
     window_code (sample_at h 0) = 0 -> window_code (sample_at h 1) = b ->
     fst (polls 2 h) = [0; b] /\ prev_move (snd (polls 2 h)) = b) /\
  (forall (h : hw) (b : Z),
     b <> 0 -> prev_move h <> b ->
     window_code (sample_at h 0) = b -> window_code (sample_at h 1) = 0 ->
     window_code (sample_at h 2) = b ->
     fst (polls 3 h) = [b; 0; b]).
Proof.
  assert (Hone : forall h : hw,
     window_code (next_sample h) = 0 -> prev_move h <> 0 ->
     fst (get_player_move h) = 0 /\
     prev_move (snd (get_player_move h)) = 0).
  { intros h Hz Hp.
    destruct (get_player_move_result h) as (Hret & Hprev & _).
    rewrite Hz in Hret, Hprev.
    destruct (0 =? prev_move h); auto. }
  assert (Hfresh : forall (h : hw) (b : Z),
     prev_move h <> b -> window_code (next_sample h) = b ->
     fst (get_player_move h) = b /\
     prev_move (snd (get_player_move h)) = b).
  { intros h b Hp Hb.
    destruct (get_player_move_result h) as (Hret & Hprev & _).
    rewrite Hb in Hret, Hprev.
    destruct (Z.eqb_spec b (prev_move h)); [congruence | auto]. }
  split; [exact Hone | split].
  - intros h b Hb Hp H0 H1. rewrite sample_at_0 in H0.
    destruct (Hone h H0) as [R1 P1]; [congruence|].
    rewrite <- sample_at_next, sample_at_0 in H1.
    destruct (Hfresh (snd (get_player_move h)) b) as [R2 P2];
      [congruence | exact H1 |].
    rewrite !polls_succ, polls_0. cbn [fst snd].
    rewrite R1, R2, P2. auto.
  - intros h b Hb Hp H0 H1 H2. rewrite sample_at_0 in H0.
    destruct (Hfresh h b Hp H0) as [R1 P1].
    rewrite <- sample_at_next, sample_at_0 in H1.
    destruct (Hone _ H1) as [R2 P2]; [congruence|].
    rewrite <- !sample_at_next, sample_at_0 in H2.
    destruct (Hfresh (snd (get_player_move (snd (get_player_move h)))) b)
      as [R3 P3]; [congruence | exact H2 |].
    rewrite !polls_succ, polls_0. cbn [fst snd].
    rewrite R1, R2, R3. reflexivity.
Qed.

Lemma release_rearms_classifier_witness :
  let h := Hw 0 0 (fun k => if Nat.eqb k 1 then 0 else 720) O 0 0 1 [] in
  fst (polls 3 h) = [8; 0; 8].
Proof.
  intros h.
  destruct release_rearms_classifier as (_ & _ & H).
  apply (H h 8); [lia | simpl; lia | reflexivity | reflexivity | reflexivity].
Defined.

(** ** The game loop *)

Lemma error_flash_unfold (h : hw) :
  exec error_flash h =
    Hw (Z.land (Z.lor (Z.land (Z.lor (PORTB h) 3) 240) 1) 240)
       (eeprom h) (adc_in h) (adc_pos h) (prev_move h)
       (cascade_i h) (cascade_up h)
       (DelayMs 100
        :: PortB (Z.land (Z.lor (Z.land (Z.lor (PORTB h) 3) 240) 1) 240)
        :: DelayMs 100
        :: PortB (Z.lor (Z.land (Z.lor (PORTB h) 3) 240) 1)
        :: DelayMs 100
        :: PortB (Z.land (Z.lor (PORTB h) 3) 240)
        :: DelayMs 100
        :: PortB (Z.lor (PORTB h) 3)
        :: log h).
Proof. reflexivity. Qed.

Lemma loop_body_error (v : vars) (h : hw) :
  gamestate v <> IDLE -> gamestate v <> CPU -> gamestate v <> PLAYER ->
  loop_body (v, h) = Done (v, exec error_flash h).
Proof.
  intros HI HC HP. unfold loop_body. cbn [fst snd].
  apply Z.eqb_neq in HI, HC, HP. rewrite HC, HP, HI. reflexivity.
Qed.

(** C9.  A [gamestate] outside IDLE, CPU and PLAYER is terminal: every
    iteration completes, only runs the error flash on port B, and leaves
    [gamestate], [cpu_counter], [player_counter], [moves] and [random] as
    they were, for any number of iterations; the flash itself touches
    nothing but port B and the log. *)
Theorem error_state_terminal (v : vars) (h : hw) (n : nat) :
  gamestate v <> IDLE -> gamestate v <> CPU -> gamestate v <> PLAYER ->
  loop_body (v, h) = Done (v, exec error_flash h) /\
  run n (v, h) = Done (v, Nat.iter n (exec error_flash) h) /\
  (forall h0 : hw,
     eeprom (exec error_flash h0) = eeprom h0 /\
     prev_move (exec error_flash h0) = prev_move h0 /\
     adc_pos (exec error_flash h0) = adc_pos h0 /\
     log (exec error_flash h0) =
       [DelayMs 100;
        PortB (Z.land (Z.lor (Z.land (Z.lor (PORTB h0) 3) 240) 1) 240);
        DelayMs 100;
        PortB (Z.lor (Z.land (Z.lor (PORTB h0) 3) 240) 1);
        DelayMs 100;
        PortB (Z.land (Z.lor (PORTB h0) 3) 240);
        DelayMs 100;
        PortB (Z.lor (PORTB h0) 3)] ++ log h0).
Proof.
  intros HI HC HP. split; [apply loop_body_error; assumption|]. split.
  - revert h. induction n as [|n IH]; intros h; [reflexivity|].
    cbn [run]. rewrite loop_body_error by assumption. cbn [rbind].
    rewrite IH. rewrite <- Nat.iter_succ_r. reflexivity.
  - intros h0. rewrite error_flash_unfold. repeat split.
Qed.

Lemma error_state_terminal_witness :
  let v := Vars LOSE (replicate 100 0) 3 1 77 in
  let h := Hw 0 77 (fun _ => 0) O 0 0 1 [] in
  run 5 (v, h) = Done (v, Nat.iter 5 (exec error_flash) h).
Proof.
  intros v h.
  apply (error_state_terminal v h 5); unfold v, IDLE, CPU, PLAYER, LOSE; simpl; lia.
Defined.

(** C2.  The player's turn with a non-none move [m], [cpu_counter >= 1] and
    [player_counter < cpu_counter]: the iteration completes, and
    (1) on a match at the last index, [player_counter] becomes 0 and the
        state CPU;
    (2) on a match before the last index, [player_counter] grows by one and
        the state stays PLAYER;
    (3) on a mismatch, both counters become 0 and the state IDLE. *)
Theorem player_turn_cases (v : vars) (h : hw) (stored : Z) :
  gamestate v = PLAYER ->
  fst (get_player_move h) <> 0 ->
  1 <= cpu_counter v < 65536 ->
  0 <= player_counter v < cpu_counter v ->
  moves v !! Z.to_nat (player_counter v) = Some stored ->
  exists (v' : vars) (h' : hw),
    loop_body (v, h) = Done (v', h') /\
    moves v' = moves v /\ random v' = random v /\
    (fst (get_player_move h) = stored ->
     player_counter v = cpu_counter v - 1 ->
     player_counter v' = 0 /\ gamestate v' = CPU /\
     cpu_counter v' = cpu_counter v) /\
    (fst (get_player_move h) = stored ->
     player_counter v < cpu_counter v - 1 ->
     player_counter v' = player_counter v + 1 /\ gamestate v' = PLAYER /\
     cpu_counter v' = cpu_counter v) /\
    (fst (get_player_move h) <> stored ->
     player_counter v' = 0 /\ cpu_counter v' = 0 /\ gamestate v' = IDLE).
Proof.
  intros Hgs Hm Hcc Hpc Hload.
  unfold loop_body. cbn [fst snd].
  rewrite Hgs. change (PLAYER =? CPU) with false. change (PLAYER =? PLAYER) with true.
  cbv iota.
  apply Z.eqb_neq in Hm as Hmb. rewrite Hmb.
  unfold load. rewrite Hload. cbn [rbind].
  rewrite (u16_small (cpu_counter v - 1)) by lia.
  destruct (Z.eqb_spec (fst (get_player_move h)) stored) as [Heq|Hne].
  - destruct (Z.eqb_spec (player_counter v) (cpu_counter v - 1)) as [Hlast|Hmid].
    + eexists _, _. split; [reflexivity|].
      cbn [gamestate moves cpu_counter player_counter random].
      repeat split; intros; try lia; try congruence.
    + eexists _, _. split; [reflexivity|].
      cbn [gamestate moves cpu_counter player_counter random].
      rewrite u16_small by lia.
      repeat split; intros; try lia; try congruence.
  - eexists _, _. split; [reflexivity|].
      cbn [gamestate moves cpu_counter player_counter random].
    repeat split; intros; try lia; try congruence.
Qed.

Lemma player_turn_cases_witness :
  let v := Vars PLAYER ([1; 2] ++ replicate 98 0) 2 1 77 in
  let h := Hw 0 77 (fun _ => 670) O 0 0 1 [] in
  exists (v' : vars) (h' : hw),
    loop_body (v, h) = Done (v', h') /\
    player_counter v' = 0 /\ cpu_counter v' = 0 /\ gamestate v' = IDLE.
Proof.
  intros v h.
  destruct (player_turn_cases v h 2) as (v' & h' & E & _ & _ & _ & _ & H3).
  - reflexivity.
  - vm_compute. discriminate.
  - simpl. lia.
  - simpl. lia.
  - reflexivity.
  - exists v', h'. split; [exact E|]. apply H3. vm_compute. discriminate.
Defined.

(** ** Invariants of the reachable states *)

Lemma move_of_random_one_hot (r : Z) :
  0 <= r < 32768 ->
  0 <= Z.shiftr r 13 <= 3 /\ one_hot (move_of_random r).
Proof.
  intros Hr. unfold move_of_random, one_hot.
  rewrite Z.shiftr_div_pow2 by lia.
  assert (Hq : 0 <= r / 2 ^ 13 <= 3).
  { split; [apply Z.div_pos; lia|].
    apply Z.lt_succ_r, Z.div_lt_upper_bound; lia. }
  split; [exact Hq|].
  assert (Hc : r / 2 ^ 13 = 0 \/ r / 2 ^ 13 = 1 \/
               r / 2 ^ 13 = 2 \/ r / 2 ^ 13 = 3) by lia.
  destruct Hc as [-> | [-> | [-> | ->]]]; vm_compute; auto.
Qed.

Lemma rand_lcg_range (x : Z) :
  0 <= rand_lcg x MAX_PERIOD MULTIPLIER C < 32768.
Proof. apply (lcg_step_range x). Qed.

Lemma boot_inv (seed : Z) (junk : list Z) (adc : nat -> Z) :
  length junk = Z.to_nat MAX_MOVES -> game_inv (fst (boot seed junk adc)).
Proof.
  intros Hlen. unfold game_inv, boot, MAX_MOVES, IDLE, CPU, PLAYER; simpl.
  repeat split; try lia; try assumption; auto.
Qed.

Lemma loop_body_inv (v : vars) (h : hw) (s' : vars * hw) :
  game_inv v -> loop_body (v, h) = Done s' -> game_inv (fst s').
Proof.
  intros (Hlen & Hcc & Hhot & Hgs & Hpl & Hnpl).
  unfold loop_body. cbn [fst snd].
  unfold MAX_MOVES in *.
  destruct Hgs as [Hgs | [Hgs | Hgs]]; rewrite Hgs.
  - (* IDLE *)
    change (IDLE =? CPU) with false. change (IDLE =? PLAYER) with false.
    change (IDLE =? IDLE) with true. cbv iota.
    assert (Hp0 : player_counter v = 0)
      by (apply Hnpl; rewrite Hgs; discriminate).
    match goal with |- context [if ?c then _ else _] => destruct c end;
      intros [= <-]; unfold game_inv, MAX_MOVES, IDLE, CPU, PLAYER; cbn;
      (repeat split; try assumption; try lia; auto;
       try (intros; first [lia | discriminate | congruence])).
  - (* CPU *)
    change (CPU =? CPU) with true. cbv iota.
    unfold store. destruct (decide _) as [Hin|]; [|discriminate].
    cbn [rbind].
    destruct (playback _ _ _) as [h2|]; [|discriminate].
    cbn [rbind]. intros [= <-].
    assert (Hp0 : player_counter v = 0)
      by (apply Hnpl; rewrite Hgs; discriminate).
    assert (Hlt : cpu_counter v < 100) by lia.
    unfold game_inv, MAX_MOVES, IDLE, CPU, PLAYER; cbn [fst gamestate moves cpu_counter player_counter random].
    rewrite u16_small by lia. rewrite length_insert.
    repeat split; try assumption; try lia; auto.
    intros i Hi.
    destruct (Z.eq_dec i (cpu_counter v)) as [->|Hne].
    + exists (move_of_random (rand_lcg (random v) MAX_PERIOD MULTIPLIER C)).
      split; [apply list_lookup_insert_eq; exact Hin|].
      apply move_of_random_one_hot, rand_lcg_range.
    + rewrite list_lookup_insert_ne by lia. apply Hhot. lia.
  - (* PLAYER *)
    change (PLAYER =? CPU) with false. change (PLAYER =? PLAYER) with true.
    cbv iota.
    specialize (Hpl Hgs).
    destruct (fst (get_player_move h) =? 0).
    + intros [= <-]. cbn [fst]. unfold game_inv, MAX_MOVES.
      repeat split; try assumption; try lia; auto.
    + unfold load. destruct (moves v !! _) as [m|]; [|discriminate].
      cbn [rbind].
      destruct (fst (get_player_move h) =? m).
      * destruct (Z.eqb_spec (player_counter v) (u16 (cpu_counter v - 1)))
          as [Hlast|Hmid]; intros [= <-];
          unfold game_inv, MAX_MOVES, IDLE, CPU, PLAYER;
          cbn [fst gamestate moves cpu_counter player_counter random].
        -- repeat split; try assumption; try lia; auto.
        -- rewrite u16_small in Hmid by lia. rewrite u16_small by lia.
           repeat split; try assumption; try lia; auto.
      * intros [= <-].
        unfold game_inv, MAX_MOVES, IDLE, CPU, PLAYER;
          cbn [fst gamestate moves cpu_counter player_counter random].
        repeat split; try assumption; try lia; auto.
Qed.

Lemma run_inv (n : nat) : forall s s' : vars * hw,
  game_inv (fst s) -> run n s = Done s' -> game_inv (fst s').
Proof.
  induction n as [|n IH]; intros [v h] s' Hinv; cbn [run].
  - intros [= <-]. exact Hinv.
  - destruct (loop_body (v, h)) as [s1|] eqn:E; [|discriminate].
    cbn [rbind]. apply IH. exact (loop_body_inv v h s1 Hinv E).
Qed.

Lemma reachable_inv (seed : Z) (junk : list Z) (adc : nat -> Z)
    (s : vars * hw) :
  length junk = Z.to_nat MAX_MOVES -> reachable seed junk adc s ->
  game_inv (fst s).
Proof.
  intros Hlen [n Hrun].
  exact (run_inv n _ _ (boot_inv seed junk adc Hlen) Hrun).
Qed.

Lemma loop_body_cpu (v : vars) (h : hw) (s' : vars * hw) :
  gamestate v = CPU -> loop_body (v, h) = Done s' ->
  (Z.to_nat (cpu_counter v) < length (moves v))%nat /\
  fst s' =
    Vars PLAYER
      (<[Z.to_nat (cpu_counter v) :=
           move_of_random (rand_lcg (random v) MAX_PERIOD MULTIPLIER C)]>
         (moves v))
      (u16 (cpu_counter v + 1)) (player_counter v)
      (rand_lcg (random v) MAX_PERIOD MULTIPLIER C).
Proof.
  intros Hgs. unfold loop_body. cbn [fst snd]. rewrite Hgs.
  change (CPU =? CPU) with true. cbv iota.
  unfold store. destruct (decide _) as [Hin|]; [|discriminate].
  cbn [rbind]. destruct (playback _ _ _) as [h2|]; [|discriminate].
  cbn [rbind]. intros [= <-]. split; [exact Hin | reflexivity].
Qed.

(** C7.  One-hot moves.  In every state reached from the boot state, for
    any EEPROM word, any initial contents of the array and any samples,
    each [moves[i]] with [i < cpu_counter] is 0x01, 0x02, 0x04 or 0x08; and
    a completed CPU turn stores at index [cpu_counter] the value
    [0x01 << (random >> 13)] for the fresh generator output [random], which
    is below 32768, so that the shift amount is at most 3. *)
Theorem stored_moves_one_hot (seed : Z) (junk : list Z) (adc : nat -> Z)
    (s : vars * hw) :
  length junk = Z.to_nat MAX_MOVES ->
  reachable seed junk adc s ->
  (forall i, 0 <= i < cpu_counter (fst s) ->
     exists m, moves (fst s) !! Z.to_nat i = Some m /\ one_hot m) /\
  (gamestate (fst s) = CPU ->
   forall s' : vars * hw, loop_body s = Done s' ->
     let r := rand_lcg (random (fst s)) MAX_PERIOD MULTIPLIER C in
     random (fst s') = r /\
     0 <= r < 32768 /\
     0 <= Z.shiftr r 13 <= 3 /\
     moves (fst s') !! Z.to_nat (cpu_counter (fst s)) =
       Some (u8 (Z.shiftl 1 (Z.shiftr r 13))) /\
     one_hot (u8 (Z.shiftl 1 (Z.shiftr r 13)))).
Proof.
  intros Hlen Hreach.
  pose proof (reachable_inv seed junk adc s Hlen Hreach)
    as (_ & _ & Hhot & _).
  split; [exact Hhot|].
  destruct s as [v h]. cbn [fst]. intros Hgs s' Hstep.
  set (r := rand_lcg (random v) MAX_PERIOD MULTIPLIER C).
  destruct (loop_body_cpu v h s' Hgs Hstep) as [Hin Hs']. fold r in Hs'.
  pose proof (rand_lcg_range (random v)) as Hr. fold r in Hr.
  destruct (move_of_random_one_hot r Hr) as [Hsh Hone].
  rewrite Hs'. cbn [random moves].
  repeat split; try lia; try exact Hone.
  apply list_lookup_insert_eq. exact Hin.
Qed.

Lemma stored_moves_one_hot_witness :
  exists s : vars * hw,
    run 2 (boot 0 (replicate 100 0) (stream_of [201])) = Done s /\
    cpu_counter (fst s) = 1 /\
    exists m, moves (fst s) !! Z.to_nat 0 = Some m /\ one_hot m.
Proof.
  assert (Hsum : summary (run 2 (boot 0 (replicate 100 0) (stream_of [201])))
                 = Done (PLAYER, 1, 0, 1)) by (vm_compute; reflexivity).
  destruct (run 2 (boot 0 (replicate 100 0) (stream_of [201])))
    as [s|i] eqn:E; [|discriminate].
  cbn [summary] in Hsum. injection Hsum as _ Hcc _ _.
  exists s. split; [reflexivity|]. split; [exact Hcc|].
  apply (stored_moves_one_hot 0 (replicate 100 0) (stream_of [201]) s).
  - reflexivity.
  - exists 2%nat. exact E.
  - lia.
Defined.

(** In the states reached without leaving the array, the counters stay
    within it, the state is one of IDLE, CPU and PLAYER, and in the
    player's turn [player_counter] indexes a stored move. *)
Lemma reachable_bounds (seed : Z) (junk : list Z) (adc : nat -> Z)
    (s : vars * hw) :
  length junk = Z.to_nat MAX_MOVES ->
  reachable seed junk adc s ->
  length (moves (fst s)) = Z.to_nat MAX_MOVES /\
  0 <= cpu_counter (fst s) <= MAX_MOVES /\
  (gamestate (fst s) = IDLE \/ gamestate (fst s) = CPU \/
   gamestate (fst s) = PLAYER) /\
  (gamestate (fst s) = PLAYER ->
   1 <= cpu_counter (fst s) /\
   0 <= player_counter (fst s) < cpu_counter (fst s)).
Proof.
  intros Hlen Hreach.
  pose proof (reachable_inv seed junk adc s Hlen Hreach)
    as (H1 & H2 & _ & H4 & H5 & _).
  repeat split; try assumption; try lia; try (apply H5; assumption).
Qed.

(** ** The array overflows after a hundred rounds *)

Lemma run_snoc (n : nat) : forall s : vars * hw,
  run (S n) s = rbind (run n s) loop_body.
Proof.
  induction n as [|n IH]; intros s.
  - cbn [run rbind]. destruct (loop_body s); reflexivity.
  - change (run (S (S n)) s) with (rbind (loop_body s) (run (S n))).
    cbn [run]. destruct (loop_body s) as [s1|i]; cbn [rbind]; [|reflexivity].
    apply IH.
Qed.

(** C1.  The bound on the move sequence ([cpu_counter] at most
    [MAX_MOVES], every append below index 100) is not kept by the code: it
    fails on this run.  The EEPROM holds 0, the array starts zeroed, and
    the player activates the game and then repeats every sequence without a
    mistake.  After 10200 iterations and 10100 samples the hundredth round
    is complete: the state is CPU, [cpu_counter] is 100 and [moves] has its
    100 cells.  The next CPU turn stores at [moves[100]], outside the
    array. *)
Theorem moves_overflow_after_100_rounds :
  exists s : vars * hw,
    reachable 0 (replicate 100 0) (stream_of (perfect_play 0 100)) s /\
    gamestate (fst s) = CPU /\
    cpu_counter (fst s) = MAX_MOVES /\
    length (moves (fst s)) = Z.to_nat MAX_MOVES /\
    Z.of_nat (adc_pos (snd s)) = 10100 /\
    loop_body s = OutOfBounds 100.
Proof.
  set (b := boot 0 (replicate 100 0) (stream_of (perfect_play 0 100))).
  assert (Hsum : summary (run (Z.to_nat 10200) b) = Done (CPU, 100, 0, 10100))
    by (vm_compute; reflexivity).
  assert (Hnext : run (S (Z.to_nat 10200)) b = OutOfBounds 100)
    by (vm_compute; reflexivity).
  rewrite run_snoc in Hnext.
  destruct (run (Z.to_nat 10200) b) as [s|i] eqn:E; [|discriminate].
  cbn [rbind] in Hnext. cbn [summary] in Hsum.
  injection Hsum as Hgs Hcc _ Hpos.
  assert (Hreach : reachable 0 (replicate 100 0)
                     (stream_of (perfect_play 0 100)) s)
    by (exists (Z.to_nat 10200); exact E).
  exists s. repeat split; try assumption.
  apply (reachable_bounds 0 (replicate 100 0)
           (stream_of (perfect_play 0 100)) s); [reflexivity | exact Hreach].
Qed.

(** ** Sequencing in the device monad *)

Lemma exec_seq {A} (m : io A) (k : io unit) (h : hw) :
  exec (bind m (fun _ => k)) h = exec k (exec m h).
Proof. reflexivity. Qed.

Lemma for_each_cons {A} (x : A) (l : list A) (body : A -> io unit) (h : hw) :
  exec (for_each (x :: l) body) h = exec (for_each l body) (exec (body x) h).
Proof. reflexivity. Qed.

Lemma for_each_invariant {A} (P : hw -> Prop) (l : list A)
    (body : A -> io unit) :
  (forall x h, P h -> P (exec (body x) h)) ->
  forall h, P h -> P (exec (for_each l body) h).
Proof.
  intros Hbody. induction l as [|x l IH]; intros h Hh; [exact Hh|].
  rewrite for_each_cons. apply IH, Hbody, Hh.
Qed.

(** ** The idle animation *)

Lemma cascade_leds_unfold (h : hw) :
  exec cascade_leds h =
    let i := cascade_i h in
    let up' := if i =? 3 then 0 else if i =? 0 then 1 else cascade_up h in
    Hw (Z.land (Z.lor (PORTB h) (led_display (Z.shiftl 1 i))) 240)
       (eeprom h) (adc_in h) (adc_pos h) (prev_move h)
       (if up' =? 0 then u16 (i - 1) else u16 (i + 1)) up'
       (DelayMs 50
        :: PortB (Z.land (Z.lor (PORTB h) (led_display (Z.shiftl 1 i))) 240)
        :: DelayMs 100
        :: PortB (Z.lor (PORTB h) (led_display (Z.shiftl 1 i)))
        :: log h).
Proof. reflexivity. Qed.

Lemma cascade_i_step (h : hw) :
  0 <= cascade_i h <= 3 ->
  cascade_i (exec cascade_leds h) =
    (if cascade_i h =? 3 then 2
     else if cascade_i h =? 0 then 1
     else if cascade_up h =? 0 then cascade_i h - 1 else cascade_i h + 1) /\
  cascade_up (exec cascade_leds h) =
    (if cascade_i h =? 3 then 0
     else if cascade_i h =? 0 then 1 else cascade_up h).
Proof.
  intros Hi. rewrite cascade_leds_unfold. cbn [cascade_i cascade_up].
  destruct (Z.eqb_spec (cascade_i h) 3) as [E3|N3].
  - rewrite E3. split; reflexivity.
  - destruct (Z.eqb_spec (cascade_i h) 0) as [E0|N0].
    + rewrite E0. split; reflexivity.
    + destruct (cascade_up h =? 0); rewrite u16_small by lia; auto.
Qed.

Lemma cascade_after_succ (n : nat) (h : hw) :
  cascade_after (S n) h = exec cascade_leds (cascade_after n h).
Proof. reflexivity. Qed.

Lemma cascade_after_add (n m : nat) (h : hw) :
  cascade_after (n + m) h = cascade_after n (cascade_after m h).
Proof. unfold cascade_after. apply Nat.iter_add. Qed.

Lemma shift_one_hot (i : Z) : 0 <= i <= 3 -> one_hot (u8 (Z.shiftl 1 i)).
Proof.
  intros Hi. unfold one_hot.
  assert (Hc : i = 0 \/ i = 1 \/ i = 2 \/ i = 3) by lia.
  destruct Hc as [-> | [-> | [-> | ->]]]; vm_compute; auto.
Qed.

(** The animation index never leaves the four LEDs: from an index in 0..3,
    after any number of calls of [cascade_leds] the static [i] is again in
    0..3, so the frame [0x01 << i] shown by the next call is one of the
    four move codes and [i -= 1] never wraps below zero. *)
Theorem cascade_leds_index_bounded (h : hw) (n : nat) :
  0 <= cascade_i h <= 3 ->
  0 <= cascade_i (cascade_after n h) <= 3 /\
  one_hot (u8 (Z.shiftl 1 (cascade_i (cascade_after n h)))) /\
  led_display (Z.shiftl 1 (cascade_i (cascade_after n h))) <> 0.
Proof.
  intros Hi.
  assert (Hb : 0 <= cascade_i (cascade_after n h) <= 3).
  { induction n as [|n IH]; [exact Hi|].
    rewrite cascade_after_succ.
    destruct (cascade_i_step _ IH) as [-> _].
    destruct (Z.eqb_spec (cascade_i (cascade_after n h)) 3); [lia|].
    destruct (Z.eqb_spec (cascade_i (cascade_after n h)) 0); [lia|].
    destruct (cascade_up (cascade_after n h) =? 0); lia. }
  split; [exact Hb|]. split; [apply shift_one_hot, Hb|].
  assert (Hc : cascade_i (cascade_after n h) = 0 \/
               cascade_i (cascade_after n h) = 1 \/
               cascade_i (cascade_after n h) = 2 \/
               cascade_i (cascade_after n h) = 3) by lia.
  destruct Hc as [-> | [-> | [-> | ->]]]; vm_compute; discriminate.
Qed.

Lemma cascade_leds_index_bounded_witness :
  0 <= cascade_i (cascade_after 7 (Hw 0 0 (fun _ => 0) O 0 3 1 [])) <= 3.
Proof.
  apply (cascade_leds_index_bounded (Hw 0 0 (fun _ => 0) O 0 3 1 []) 7).
  simpl. lia.
Defined.

Ltac cascade_next h n Hi Hu I U :=
  destruct (cascade_i_step (cascade_after n h) ltac:(lia)) as [I U];
  rewrite ?Hi, ?Hu in I, U;
  simpl (_ =? _) in I, U; cbv iota in I, U;
  simpl (_ + _) in I; simpl (_ - _) in I;
  change (exec cascade_leds (cascade_after n h))
    with (cascade_after (S n) h) in I, U.

Lemma cascade_first_six (h : hw) :
  cascade_i h = 0 ->
  cascade_i (cascade_after 1 h) = 1 /\
  cascade_i (cascade_after 2 h) = 2 /\
  cascade_i (cascade_after 3 h) = 3 /\
  cascade_i (cascade_after 4 h) = 2 /\
  cascade_i (cascade_after 5 h) = 1 /\
  cascade_i (cascade_after 6 h) = 0.
Proof.
  intros H0.
  assert (I0 : cascade_i (cascade_after 0 h) = 0) by exact H0.
  assert (U0 : cascade_up (cascade_after 0 h) = cascade_up h) by reflexivity.
  cascade_next h 0%nat I0 U0 I1 U1.
  cascade_next h 1%nat I1 U1 I2 U2.
  cascade_next h 2%nat I2 U2 I3 U3.
  cascade_next h 3%nat I3 U3 I4 U4.
  cascade_next h 4%nat I4 U4 I5 U5.
  cascade_next h 5%nat I5 U5 I6 U6.
  repeat split; assumption.
Qed.

(** The idle animation bounces with period 6: counted from a call made
    with [i = 0], the frames run over LEDs 0, 1, 2, 3, 2, 1 and repeat,
    whatever the direction flag was. *)
Theorem cascade_leds_period (h : hw) (q r : nat) :
  cascade_i h = 0 -> (r < 6)%nat ->
  cascade_i (cascade_after (r + 6 * q) h) = nth r [0; 1; 2; 3; 2; 1] 0.
Proof.
  intros H0 Hr. revert h H0. induction q as [|q IH]; intros h H0.
  - rewrite Nat.mul_0_r, Nat.add_0_r.
    destruct (cascade_first_six h H0) as (I1 & I2 & I3 & I4 & I5 & _).
    destruct r as [|[|[|[|[|[|r]]]]]]; try lia; assumption.
  - replace (r + 6 * S q)%nat with ((r + 6 * q) + 6)%nat by lia.
    rewrite cascade_after_add. apply IH.
    apply (cascade_first_six h H0).
Qed.

Lemma cascade_leds_period_witness :
  cascade_i (cascade_after (4 + 6 * 2) (Hw 0 0 (fun _ => 0) O 0 0 1 [])) = 2.
Proof.
  apply (cascade_leds_period (Hw 0 0 (fun _ => 0) O 0 0 1 []) 2 4);
    [reflexivity | lia].
Defined.

(** ** Port B discipline *)

Lemma led_display_pattern (x : Z) : led_pattern (led_display x).
Proof.
  assert (E : led_display x = led_display (u8 x)).
  { unfold led_display, u8. rewrite Z.mod_mod by lia. reflexivity. }
  rewrite E, (led_display_table (u8 x) (u8_range x)). unfold led_pattern.
  destruct (u8 x =? 1); [auto|]. destruct (u8 x =? 2); [auto|].
  destruct (u8 x =? 4); [auto 6|]. destruct (u8 x =? 8); auto.
Qed.

Lemma led_pattern_cleared (v : Z) : led_pattern v -> Z.land v 240 = 0.
Proof. intros [-> | [-> | [-> | [-> | ->]]]]; reflexivity. Qed.

Lemma set_then_clear (p v : Z) :
  led_pattern v -> Z.land (Z.lor p v) 240 = Z.land p 240.
Proof.
  intros Hv. rewrite Z.land_lor_distr_l, (led_pattern_cleared v Hv).
  apply Z.lor_0_r.
Qed.

Lemma same_devices_refl (h : hw) : same_devices h h.
Proof. repeat split. Qed.

Lemma same_devices_trans (h1 h2 h3 : hw) :
  same_devices h1 h2 -> same_devices h2 h3 -> same_devices h1 h3.
Proof.
  unfold same_devices. intros (A1 & A2 & A3 & A4 & A5 & A6)
                              (B1 & B2 & B3 & B4 & B5 & B6).
  repeat split; congruence.
Qed.

Lemma display_only_portb_or (v : Z) : display_only (portb_or v).
Proof. intros h. repeat split. Qed.

Lemma display_only_portb_and (v : Z) : display_only (portb_and v).
Proof. intros h. repeat split. Qed.

Lemma display_only_set_display (x : Z) : display_only (set_display x).
Proof. intros h. repeat split. Qed.

Lemma display_only_clear_display : display_only clear_display.
Proof. intros h. repeat split. Qed.

Lemma display_only_delay_ms (n : Z) : display_only (_delay_ms n).
Proof. intros h. repeat split. Qed.

Lemma display_only_delay_us (n : Z) : display_only (_delay_us n).
Proof. intros h. repeat split. Qed.

Lemma display_only_seq (a b : io unit) :
  display_only a -> display_only b -> display_only (bind a (fun _ => b)).
Proof.
  intros Ha Hb h. rewrite exec_seq.
  exact (same_devices_trans _ _ _ (Ha h) (Hb (exec a h))).
Qed.

Lemma display_only_for_each {A} (l : list A) (body : A -> io unit) :
  (forall x, display_only (body x)) -> display_only (for_each l body).
Proof.
  intros Hbody h.
  apply (for_each_invariant (same_devices h)); [|apply same_devices_refl].
  intros x h' Hh'. exact (same_devices_trans _ _ _ Hh' (Hbody x h')).
Qed.

Create HintDb display_only.
#[local] Hint Resolve display_only_portb_or display_only_portb_and
  display_only_set_display display_only_clear_display
  display_only_delay_ms display_only_delay_us display_only_seq
  : display_only.

Lemma display_only_blink_leds : display_only blink_leds.
Proof.
  unfold blink_leds. apply display_only_for_each. intros _.
  apply display_only_for_each. intros j. auto 10 with display_only.
Qed.

Lemma display_only_error_flash : display_only error_flash.
Proof. unfold error_flash. auto 12 with display_only. Qed.

#[local] Hint Resolve display_only_blink_leds display_only_error_flash
  : display_only.

(** Lit and idle: how each primitive moves the display between the two. *)
Lemma lit_of_idle (h : hw) : display_idle h -> display_lit h.
Proof. intros [HP HL]. split; [rewrite HP; left; reflexivity | exact HL]. Qed.

Lemma idle_portb_or (x : Z) (h : hw) :
  display_idle h -> display_lit (exec (portb_or (led_display x)) h).
Proof.
  intros [HP HL]. unfold display_lit. cbn [exec snd portb_or write_portb PORTB log].
  rewrite HP, Z.lor_0_l. split; [apply led_display_pattern|].
  constructor; [apply led_display_pattern | exact HL].
Qed.

Lemma lit_portb_and (h : hw) :
  display_lit h -> display_idle (exec (portb_and 240) h).
Proof.
  intros [HP HL]. unfold display_idle. cbn [exec snd portb_and write_portb PORTB log].
  rewrite (led_pattern_cleared _ HP). split; [reflexivity|].
  constructor; [left; reflexivity | exact HL].
Qed.

Lemma idle_set_display (x : Z) (h : hw) :
  display_idle h -> display_lit (exec (set_display x) h).
Proof. apply idle_portb_or. Qed.

Lemma lit_clear_display (h : hw) :
  display_lit h -> display_idle (exec clear_display h).
Proof. apply lit_portb_and. Qed.

Lemma idle_delay_ms (n : Z) (h : hw) :
  display_idle h -> display_idle (exec (_delay_ms n) h).
Proof. intros [HP HL]. split; [exact HP | constructor; [exact I | exact HL]]. Qed.

Lemma idle_delay_us (n : Z) (h : hw) :
  display_idle h -> display_idle (exec (_delay_us n) h).
Proof. intros [HP HL]. split; [exact HP | constructor; [exact I | exact HL]]. Qed.

Lemma lit_delay_ms (n : Z) (h : hw) :
  display_lit h -> display_lit (exec (_delay_ms n) h).
Proof. intros [HP HL]. split; [exact HP | constructor; [exact I | exact HL]]. Qed.

Lemma lit_delay_us (n : Z) (h : hw) :
  display_lit h -> display_lit (exec (_delay_us n) h).
Proof. intros [HP HL]. split; [exact HP | constructor; [exact I | exact HL]]. Qed.

Lemma idle_eeprom_write (v : Z) (h : hw) :
  display_idle h -> display_idle (exec (eeprom_write_word 46 v) h).
Proof. intros [HP HL]. split; [exact HP | constructor; [reflexivity | exact HL]]. Qed.

Lemma idle_read_adc (h : hw) :
  display_idle h -> display_idle (exec read_adc h).
Proof. intros [HP HL]. split; [exact HP | exact HL]. Qed.

Ltac display_steps :=
  rewrite ?exec_seq;
  repeat first
    [ assumption
    | apply idle_delay_ms | apply idle_delay_us
    | apply lit_delay_ms | apply lit_delay_us
    | apply lit_portb_and | apply lit_clear_display
    | apply idle_portb_or | apply idle_set_display
    | apply idle_eeprom_write | apply idle_read_adc ].

Lemma idle_blink_leds (h : hw) :
  display_idle h -> display_idle (exec blink_leds h).
Proof.
  unfold blink_leds. apply for_each_invariant. intros _ h1 H1.
  revert h1 H1. apply for_each_invariant. intros j h2 H2.
  display_steps.
Qed.

Lemma idle_error_flash (h : hw) :
  display_idle h -> display_idle (exec error_flash h).
Proof. intros H. unfold error_flash. display_steps. Qed.

Lemma idle_cascade_leds (h : hw) :
  display_idle h -> display_idle (exec cascade_leds h).
Proof.
  intros [HP HL]. rewrite cascade_leds_unfold. unfold display_idle.
  cbn [PORTB log]. rewrite HP, Z.lor_0_l.
  rewrite (led_pattern_cleared _ (led_display_pattern _)).
  split; [reflexivity|].
  constructor; [exact I|]. constructor; [left; reflexivity|].
  constructor; [exact I|]. constructor; [apply led_display_pattern | exact HL].
Qed.

Lemma idle_get_player_move (h : hw) :
  display_idle h -> display_idle (snd (get_player_move h)).
Proof.
  intros [HP HL]. rewrite get_player_move_unfold. cbv zeta.
  destruct (_ =? _); split; try exact HP; constructor; try exact I; exact HL.
Qed.

(** ** [blink_leds] *)

Lemma for_each_counted {A} (P : nat -> hw -> Prop) (l : list A)
    (body : A -> io unit) :
  (forall x k h, P k h -> P (S k) (exec (body x) h)) ->
  forall k h, P k h -> P (k + length l)%nat (exec (for_each l body) h).
Proof.
  intros Hbody. induction l as [|x l IH]; intros k h Hh.
  - cbn [length]. rewrite Nat.add_0_r. exact Hh.
  - rewrite for_each_cons. cbn [length].
    replace (k + S (length l))%nat with (S k + length l)%nat by lia.
    apply IH, Hbody, Hh.
Qed.

Lemma blink_frame_unfold (j : Z) (h : hw) :
  exec (bind (set_display (Z.shiftl 1 j)) (fun _ =>
        bind (_delay_us 100) (fun _ =>
        bind clear_display (fun _ => _delay_us 10)))) h =
    Hw (Z.land (Z.lor (PORTB h) (led_display (Z.shiftl 1 j))) 240)
       (eeprom h) (adc_in h) (adc_pos h) (prev_move h)
       (cascade_i h) (cascade_up h)
       (DelayUs 10
        :: PortB (Z.land (Z.lor (PORTB h) (led_display (Z.shiftl 1 j))) 240)
        :: DelayUs 100
        :: PortB (Z.lor (PORTB h) (led_display (Z.shiftl 1 j)))
        :: log h).
Proof. reflexivity. Qed.

(** [blink_leds] only drives port B and waits: it returns with the LED
    lines low and the upper port bits as they were, after 400 frames
    of 100 us lit and 10 us dark (44 ms of busy waiting), and leaves the
    EEPROM, the converter and the static variables alone; started with the
    port at 0 it never writes anything but 0 or one LED pattern. *)
Theorem blink_leds_effect (h : hw) :
  same_devices h (exec blink_leds h) /\
  PORTB (exec blink_leds h) = Z.land (PORTB h) 240 /\
  busy_us (log (exec blink_leds h)) = busy_us (log h) + 44000 /\
  (display_idle h -> display_idle (exec blink_leds h)).
Proof.
  split; [apply display_only_blink_leds|].
  split; [|split; [|apply idle_blink_leds]].
  - set (P := fun (k : nat) (h' : hw) =>
                (k = O -> PORTB h' = PORTB h) /\
                (k <> O -> PORTB h' = Z.land (PORTB h) 240)).
    assert (Hframe : forall (j : Z) k h', P k h' ->
              P (S k) (exec (bind (set_display (Z.shiftl 1 j)) (fun _ =>
                             bind (_delay_us 100) (fun _ =>
                             bind clear_display (fun _ => _delay_us 10)))) h')).
    { intros j k h' [H0 Hn]. rewrite blink_frame_unfold. split; [lia|].
      intros _. cbn [PORTB].
      rewrite set_then_clear by apply led_display_pattern.
      destruct k as [|k]; [rewrite H0 by reflexivity; reflexivity|].
      rewrite Hn by lia. rewrite <- Z.land_assoc. reflexivity. }
    assert (Hrow : forall k h', P k h' ->
              P (k + 4)%nat
                (exec (for_each (seqZ 0 4) (fun j =>
                   bind (set_display (Z.shiftl 1 j)) (fun _ =>
                   bind (_delay_us 100) (fun _ =>
                   bind clear_display (fun _ => _delay_us 10))))) h')).
    { intros k h' Hk.
      apply (for_each_counted P (seqZ 0 4) _ Hframe k h' Hk). }
    assert (Hall : exists k', (0 + length (seqZ 0 100) <= k')%nat /\
                              P k' (exec blink_leds h)).
    { unfold blink_leds.
      apply (for_each_counted
               (fun k h' => exists k', (k <= k')%nat /\ P k' h')
               (seqZ 0 100)).
      - intros _ k h' (k' & Hle & Hk').
        exists (k' + 4)%nat. split; [lia | apply Hrow, Hk'].
      - exists O. split; [lia|]. split; [reflexivity | lia]. }
    destruct Hall as (k' & Hle & _ & Hn).
    rewrite length_seqZ in Hle. apply Hn. lia.
  - set (Q := fun (k : nat) (h' : hw) =>
                busy_us (log h') = busy_us (log h) + 110 * Z.of_nat k).
    assert (Hframe : forall (j : Z) k h', Q k h' ->
              Q (S k) (exec (bind (set_display (Z.shiftl 1 j)) (fun _ =>
                             bind (_delay_us 100) (fun _ =>
                             bind clear_display (fun _ => _delay_us 10)))) h')).
    { intros j k h' Hk. unfold Q in *. rewrite blink_frame_unfold.
      cbn [log busy_us]. rewrite Hk. lia. }
    assert (Hall : Q ((0 + length (seqZ 0 100)) * 4)%nat (exec blink_leds h)).
    { unfold blink_leds.
      apply (for_each_counted (fun k h' => Q (k * 4)%nat h') (seqZ 0 100)).
      - intros _ k h' Hk.
        replace (S k * 4)%nat with (k * 4 + length (seqZ 0 4))%nat
          by (rewrite length_seqZ; lia).
        apply (for_each_counted Q (seqZ 0 4) _ Hframe (k * 4)%nat h' Hk).
      - unfold Q. cbn. lia. }
    unfold Q in Hall. rewrite Hall, length_seqZ. lia.
Qed.

Lemma blink_leds_effect_witness :
  PORTB (exec blink_leds (Hw 7 0 (fun _ => 0) O 0 0 1 [])) = 0 /\
  display_idle (exec blink_leds (Hw 0 0 (fun _ => 0) O 0 0 1 [])).
Proof.
  destruct (blink_leds_effect (Hw 7 0 (fun _ => 0) O 0 0 1 []))
    as (_ & Hport & _).
  destruct (blink_leds_effect (Hw 0 0 (fun _ => 0) O 0 0 1 []))
    as (_ & _ & _ & Hidle).
  split; [exact Hport|].
  apply Hidle. split; [reflexivity | constructor].
Defined.

(** ** The CPU turn *)

Lemma playback_frame_unfold (m : Z) (h : hw) :
  exec (bind (portb_or (led_display m)) (fun _ =>
        bind (_delay_ms 500) (fun _ =>
        bind (portb_and 240) (fun _ => _delay_ms 100)))) h =
    Hw (Z.land (Z.lor (PORTB h) (led_display m)) 240)
       (eeprom h) (adc_in h) (adc_pos h) (prev_move h)
       (cascade_i h) (cascade_up h)
       (DelayMs 100
        :: PortB (Z.land (Z.lor (PORTB h) (led_display m)) 240)
        :: DelayMs 500
        :: PortB (Z.lor (PORTB h) (led_display m))
        :: log h).
Proof. reflexivity. Qed.

Lemma playback_cons (mv : list Z) (i : Z) (rest : list Z) (h : hw) :
  playback mv (i :: rest) h =
    rbind (load mv i) (fun m =>
      playback mv rest
        (exec (bind (portb_or (led_display m)) (fun _ =>
               bind (_delay_ms 500) (fun _ =>
               bind (portb_and 240) (fun _ => _delay_ms 100)))) h)).
Proof. reflexivity. Qed.

(** The playback loop completes exactly when every index it reads lies in
    the array. *)
Lemma playback_total (mv : list Z) (indices : list Z) : forall h : hw,
  (forall i, i ∈ indices -> is_Some (mv !! Z.to_nat i)) ->
  exists h', playback mv indices h = Done h'.
Proof.
  induction indices as [|i rest IH]; intros h Hin; [eexists; reflexivity|].
  rewrite playback_cons. unfold load.
  destruct (Hin i) as [m Hm]; [left|]. rewrite Hm. cbn [rbind].
  apply IH. intros i' Hi'. apply Hin. right. exact Hi'.
Qed.

Lemma playback_effect (mv : list Z) (indices : list Z) : forall h h' : hw,
  playback mv indices h = Done h' ->
  same_devices h h' /\
  (display_idle h -> display_idle h') /\
  (PORTB h = 0 ->
   exists ms,
     Forall2 (fun i m => mv !! Z.to_nat i = Some m) indices ms /\
     log h' = rev (playback_frames ms) ++ log h).
Proof.
  induction indices as [|i rest IH]; intros h h'.
  - intros [= <-]. split; [apply same_devices_refl|]. split; [auto|].
    intros _. exists []. split; [constructor | reflexivity].
  - rewrite playback_cons. unfold load.
    destruct (mv !! Z.to_nat i) as [m|] eqn:Hm; [|discriminate].
    cbn [rbind]. intros Hrest.
    destruct (IH _ _ Hrest) as (Hsame & Hidle & Hlog).
    split; [|split].
    + refine (same_devices_trans _ _ _ _ Hsame).
      rewrite playback_frame_unfold. repeat split.
    + intros Hh. apply Hidle. display_steps.
    + intros HP. rewrite playback_frame_unfold in Hlog. cbn [PORTB log] in Hlog.
      rewrite HP, Z.lor_0_l in Hlog.
      rewrite (led_pattern_cleared _ (led_display_pattern m)) in Hlog.
      destruct (Hlog eq_refl) as (ms & HF & E).
      exists (m :: ms). split; [constructor; assumption|].
      rewrite E. unfold playback_frames. cbn [flat_map rev app].
      rewrite <- !app_assoc. reflexivity.
Qed.

Lemma reads_of_prefix (mv : list Z) (n : nat) : forall (a : nat) (ms : list Z),
  Forall2 (fun i m => mv !! Z.to_nat i = Some m)
          (seqZ (Z.of_nat a) (Z.of_nat n)) ms ->
  ms = take n (drop a mv).
Proof.
  induction n as [|n IH]; intros a ms HF.
  - rewrite seqZ_nil in HF by lia. inversion HF. reflexivity.
  - rewrite seqZ_cons in HF by lia.
    inversion HF as [|i m rest ms' Hm Hrest]; subst.
    rewrite Nat2Z.id in Hm.
    replace (Z.succ (Z.of_nat a)) with (Z.of_nat (S a)) in Hrest by lia.
    replace (Z.pred (Z.of_nat (S n))) with (Z.of_nat n) in Hrest by lia.
    rewrite (IH (S a) ms' Hrest).
    rewrite (drop_S mv m a Hm). reflexivity.
Qed.

(** A CPU turn within the array always completes: with
    [cpu_counter < MAX_MOVES] cells used and the display dark, it stores the
    new generator state in the EEPROM, appends the move, shows the whole
    sequence from index 0 through the new move in order (500 ms lit, 100 ms
    dark each), takes no sample, and hands over to the player with
    [cpu_counter] one higher. *)
Theorem cpu_turn_plays_sequence (v : vars) (h : hw) :
  gamestate v = CPU ->
  0 <= cpu_counter v ->
  (Z.to_nat (cpu_counter v) < length (moves v))%nat ->
  PORTB h = 0 ->
  let r := rand_lcg (random v) MAX_PERIOD MULTIPLIER C in
  let moves' := <[Z.to_nat (cpu_counter v) := move_of_random r]> (moves v) in
  exists h' : hw,
    loop_body (v, h) =
      Done (Vars PLAYER moves' (u16 (cpu_counter v + 1))
                 (player_counter v) r, h') /\
    log h' =
      DelayMs 10
      :: rev (playback_frames (take (S (Z.to_nat (cpu_counter v))) moves'))
      ++ EepromWrite 46 r :: log h /\
    PORTB h' = 0 /\ eeprom h' = r /\ adc_pos h' = adc_pos h /\
    prev_move h' = prev_move h.
Proof.
  intros Hgs Hcc Hin HP r moves'.
  unfold loop_body. cbn [fst snd]. rewrite Hgs.
  change (CPU =? CPU) with true. cbv iota.
  unfold store. destruct (decide _) as [_|Hout]; [|contradiction].
  cbn [rbind]. fold r. fold moves'.
  set (h1 := exec (eeprom_write_word 46 r) h).
  destruct (playback_total moves' (seqZ 0 (cpu_counter v + 1)) h1) as [h2 Hpb].
  { intros i Hi%elem_of_seqZ. apply lookup_lt_is_Some_2.
    unfold moves'. rewrite length_insert. lia. }
  rewrite Hpb. cbn [rbind].
  destruct (playback_effect _ _ _ _ Hpb) as (Hsame & Hidle & Hlog).
  destruct (Hlog HP) as (ms & HF & E).
  replace (cpu_counter v + 1) with (Z.of_nat (S (Z.to_nat (cpu_counter v))))
    in HF by lia.
  apply (reads_of_prefix moves' _ O) in HF. rewrite drop_0 in HF. subst ms.
  destruct Hsame as (S1 & S2 & S3 & S4 & S5 & S6).
  exists (exec (_delay_ms 10) h2). split; [reflexivity|].
  cbn [exec snd _delay_ms emit log PORTB eeprom adc_pos prev_move].
  rewrite E, S1, S3, S4. repeat split.
  (* the port is 0 again after the last frame *)
  clear - Hpb HP.
  assert (Hgen : forall idx h0 h3, PORTB h0 = 0 ->
            playback moves' idx h0 = Done h3 -> PORTB h3 = 0).
  { induction idx as [|i rest IH]; intros h0 h3 H0.
    - intros [= <-]. exact H0.
    - rewrite playback_cons. unfold load.
      destruct (moves' !! Z.to_nat i) as [m|]; [|discriminate].
      cbn [rbind]. apply IH. rewrite playback_frame_unfold. cbn [PORTB].
      rewrite H0, Z.lor_0_l.
      apply led_pattern_cleared, led_display_pattern. }
  exact (Hgen _ h1 _ HP Hpb).
Qed.

Lemma cpu_turn_plays_sequence_witness :
  exists h' : hw,
    loop_body (Vars CPU (replicate 100 0) 0 0 0, Hw 0 0 (fun _ => 0) O 0 0 1 [])
    = Done (Vars PLAYER (<[O := 1]> (replicate 100 0)) 1 0 1, h') /\
    log h' = [DelayMs 10; DelayMs 100; PortB 0; DelayMs 500; PortB 3;
              EepromWrite 46 1].
Proof.
  destruct (cpu_turn_plays_sequence
              (Vars CPU (replicate 100 0) 0 0 0)
              (Hw 0 0 (fun _ => 0) O 0 0 1 []))
    as (h' & Hstep & Hlog & _).
  - reflexivity.
  - simpl. lia.
  - simpl. lia.
  - reflexivity.
  - exists h'. split; [exact Hstep | exact Hlog].
Defined.

(** ** What one iteration does to the devices *)

Lemma exec_display_only_fields (p : io unit) (h : hw) :
  display_only p ->
  eeprom (exec p h) = eeprom h /\ adc_in (exec p h) = adc_in h /\
  adc_pos (exec p h) = adc_pos h /\ prev_move (exec p h) = prev_move h /\
  cascade_i (exec p h) = cascade_i h /\ cascade_up (exec p h) = cascade_up h.
Proof. intros Hp. exact (Hp h). Qed.

Lemma idle_turn_unfold (v : vars) (h : hw) :
  gamestate v = IDLE ->
  loop_body (v, h) =
    let h1 := exec read_adc
                (exec cascade_leds
                   (exec (eeprom_write_word 46 (u16 (random v + 1))) h)) in
    if next_sample h >? 200 then
      Done (Vars CPU (moves v) (cpu_counter v) (player_counter v)
                 (u16 (random v + 1)),
            exec (bind blink_leds (fun _ => bind (_delay_ms 100) (fun _ =>
                  bind blink_leds (fun _ => _delay_ms 500)))) h1)
    else
      Done (Vars IDLE (moves v) (cpu_counter v) (player_counter v)
                 (u16 (random v + 1)), h1).
Proof.
  intros Hgs. unfold loop_body. cbn [fst snd]. rewrite Hgs.
  change (IDLE =? CPU) with false. change (IDLE =? PLAYER) with false.
  change (IDLE =? IDLE) with true. cbv iota. reflexivity.
Qed.

Lemma player_turn_unfold (v : vars) (h : hw) :
  gamestate v = PLAYER ->
  loop_body (v, h) =
    let r := get_player_move h in
    if fst r =? 0 then Done (v, exec clear_display (snd r))
    else
      let h1 := exec (bind (set_display (fst r)) (fun _ =>
                      bind (_delay_ms 50) (fun _ =>
                      bind clear_display (fun _ =>
                      bind (_delay_ms 50) (fun _ =>
                      bind (set_display (fst r)) (fun _ =>
                      bind (_delay_ms 50) (fun _ => clear_display)))))))
                     (snd r) in
      rbind (load (moves v) (player_counter v)) (fun m =>
        if fst r =? m then
          if player_counter v =? u16 (cpu_counter v - 1) then
            Done (Vars CPU (moves v) (cpu_counter v) 0 (random v),
                  exec (_delay_ms 1000) h1)
          else
            Done (Vars PLAYER (moves v) (cpu_counter v)
                       (u16 (player_counter v + 1)) (random v), h1)
        else
          Done (Vars IDLE (moves v) 0 0 (random v),
                exec (bind blink_leds (fun _ => bind (_delay_ms 100) (fun _ =>
                      bind blink_leds (fun _ => _delay_ms 500)))) h1)).
Proof.
  intros Hgs. unfold loop_body. cbn [fst snd]. rewrite Hgs.
  change (PLAYER =? CPU) with false. change (PLAYER =? PLAYER) with true.
  cbv iota. reflexivity.
Qed.

Lemma display_only_game_over :
  display_only (bind blink_leds (fun _ => bind (_delay_ms 100) (fun _ =>
                bind blink_leds (fun _ => _delay_ms 500)))).
Proof. auto 10 with display_only. Qed.

Lemma display_only_feedback (m : Z) :
  display_only (bind (set_display m) (fun _ =>
                bind (_delay_ms 50) (fun _ =>
                bind clear_display (fun _ =>
                bind (_delay_ms 50) (fun _ =>
                bind (set_display m) (fun _ =>
                bind (_delay_ms 50) (fun _ => clear_display))))))).
Proof. auto 12 with display_only. Qed.

Lemma idle_game_over (h : hw) :
  display_idle h ->
  display_idle (exec (bind blink_leds (fun _ => bind (_delay_ms 100) (fun _ =>
                      bind blink_leds (fun _ => _delay_ms 500)))) h).
Proof.
  intros H. rewrite !exec_seq.
  apply idle_delay_ms, idle_blink_leds, idle_delay_ms, idle_blink_leds, H.
Qed.

Lemma idle_feedback (m : Z) (h : hw) :
  display_idle h ->
  display_idle (exec (bind (set_display m) (fun _ =>
                      bind (_delay_ms 50) (fun _ =>
                      bind clear_display (fun _ =>
                      bind (_delay_ms 50) (fun _ =>
                      bind (set_display m) (fun _ =>
                      bind (_delay_ms 50) (fun _ => clear_display))))))) h).
Proof. intros H. display_steps. Qed.

Lemma cpu_turn_devices (v v' : vars) (h h' : hw) :
  gamestate v = CPU -> loop_body (v, h) = Done (v', h') ->
  adc_in h' = adc_in h /\ adc_pos h' = adc_pos h /\
  eeprom h' = random v' /\ prev_move h' = prev_move h /\
  cascade_i h' = cascade_i h /\
  (display_idle h -> display_idle h').
Proof.
  intros Hc. unfold loop_body. cbn [fst snd]. rewrite Hc.
  change (CPU =? CPU) with true. cbv iota.
  unfold store. destruct (decide _); [|discriminate]. cbn [rbind].
  destruct (playback _ _ _) as [h2|] eqn:Hpb; [|discriminate].
  cbn [rbind]. intros [= <- <-].
  destruct (playback_effect _ _ _ _ Hpb)
    as ((S1 & S2 & S3 & S4 & S5 & S6) & Hidle & _).
  cbn [exec snd _delay_ms emit adc_in adc_pos eeprom prev_move cascade_i random].
  rewrite S1, S2, S3, S4, S5.
  repeat (split; [reflexivity|]). intros Hh.
  apply (idle_delay_ms 10), Hidle, idle_eeprom_write, Hh.
Qed.

Lemma player_turn_devices (v v' : vars) (h h' : hw) :
  gamestate v = PLAYER -> loop_body (v, h) = Done (v', h') ->
  adc_in h' = adc_in h /\ adc_pos h' = S (adc_pos h) /\
  eeprom h' = eeprom h /\ prev_move h' = window_code (next_sample h) /\
  cascade_i h' = cascade_i h /\
  (display_idle h -> display_idle h').
Proof.
  intros Hp. rewrite (player_turn_unfold v h Hp). cbv zeta.
  destruct (get_player_move_result h) as (_ & Gp & Gpos & Gin).
  pose proof (idle_get_player_move h) as Gidle.
  assert (Ebase : eeprom (snd (get_player_move h)) = eeprom h /\
                  cascade_i (snd (get_player_move h)) = cascade_i h).
  { rewrite get_player_move_unfold. cbv zeta.
    destruct (_ =? _); split; reflexivity. }
  destruct Ebase as [Ee Ec].
  remember (get_player_move h) as g eqn:Eg. clear Eg.
  destruct (fst g =? 0).
  { intros [= <- <-].
    destruct (exec_display_only_fields clear_display
                (snd g) display_only_clear_display)
      as (F1 & F2 & F3 & F4 & F5 & F6).
    rewrite F1, F2, F3, F4, F5, Gp, Gpos, Gin, Ee, Ec.
    repeat (split; [reflexivity|]).
    intros Hh. apply lit_clear_display, lit_of_idle, Gidle, Hh. }
  unfold load. destruct (moves v !! _) as [m|]; [|discriminate].
  cbn [rbind].
  set (fb := exec _ (snd g)).
  assert (Ffb : same_devices (snd g) fb)
    by apply display_only_feedback.
  assert (Ifb : display_idle h -> display_idle fb)
    by (intros Hh; apply idle_feedback, Gidle, Hh).
  destruct Ffb as (F1 & F2 & F3 & F4 & F5 & F6).
  clearbody fb.
  destruct (fst g =? m).
  - destruct (player_counter v =? u16 (cpu_counter v - 1));
      intros [= <- <-];
      cbn [exec snd _delay_ms emit adc_in adc_pos eeprom prev_move cascade_i];
      rewrite ?F1, ?F2, ?F3, ?F4, ?F5, ?Gp, ?Gpos, ?Gin, ?Ee, ?Ec;
      repeat (split; [reflexivity|]); intros Hh;
      try apply (idle_delay_ms 1000); apply Ifb, Hh.
  - intros [= <- <-].
    destruct (exec_display_only_fields _ fb display_only_game_over)
      as (B1 & B2 & B3 & B4 & B5 & B6).
    rewrite B1, B2, B3, B4, B5, F1, F2, F3, F4, F5, Gp, Gpos, Gin, Ee, Ec.
    repeat (split; [reflexivity|]).
    intros Hh. apply idle_game_over, Ifb, Hh.
Qed.

Lemma idle_turn_devices (v v' : vars) (h h' : hw) :
  gamestate v = IDLE -> loop_body (v, h) = Done (v', h') ->
  adc_in h' = adc_in h /\ adc_pos h' = S (adc_pos h) /\
  eeprom h' = random v' /\ prev_move h' = prev_move h /\
  cascade_i h' = cascade_i (exec cascade_leds h) /\
  (display_idle h -> display_idle h').
Proof.
  intros Hi. rewrite (idle_turn_unfold v h Hi). cbv zeta.
  set (h1 := exec read_adc _).
  assert (H1 : adc_in h1 = adc_in h /\ adc_pos h1 = S (adc_pos h) /\
               eeprom h1 = u16 (random v + 1) /\
               prev_move h1 = prev_move h /\
               cascade_i h1 = cascade_i (exec cascade_leds h)).
  { unfold h1. rewrite !cascade_leds_unfold.
    repeat (split; [reflexivity|]). reflexivity. }
  destruct H1 as (A1 & A2 & A3 & A4 & A5).
  assert (I1 : display_idle h -> display_idle h1).
  { intros Hh. unfold h1.
    apply idle_read_adc, idle_cascade_leds, idle_eeprom_write, Hh. }
  clearbody h1.
  destruct (next_sample h >? 200); intros [= <- <-].
  - destruct (exec_display_only_fields _ h1 display_only_game_over)
      as (B1 & B2 & B3 & B4 & B5 & B6).
    rewrite B1, B2, B3, B4, B5, A1, A2, A3, A4, A5. cbn [random].
    repeat (split; [reflexivity|]).
    intros Hh. apply idle_game_over, I1, Hh.
  - rewrite A1, A2, A3, A4, A5. cbn [random].
    repeat (split; [reflexivity|]). exact I1.
Qed.

Lemma error_turn_devices (v v' : vars) (h h' : hw) :
  gamestate v <> IDLE -> gamestate v <> CPU -> gamestate v <> PLAYER ->
  loop_body (v, h) = Done (v', h') ->
  adc_in h' = adc_in h /\ adc_pos h' = adc_pos h /\
  eeprom h' = eeprom h /\ prev_move h' = prev_move h /\
  cascade_i h' = cascade_i h /\
  (display_idle h -> display_idle h').
Proof.
  intros Hni Hnc Hnp. rewrite (loop_body_error v h Hni Hnc Hnp).
  intros [= <- <-].
  destruct (exec_display_only_fields _ h display_only_error_flash)
    as (B1 & B2 & B3 & B4 & B5 & B6).
  rewrite B1, B2, B3, B4, B5.
  repeat (split; [reflexivity|]). apply idle_error_flash.
Qed.

Lemma iteration_devices (v v' : vars) (h h' : hw) :
  loop_body (v, h) = Done (v', h') ->
  adc_in h' = adc_in h /\
  adc_pos h' =
    (if (gamestate v =? PLAYER) || (gamestate v =? IDLE)
     then S (adc_pos h) else adc_pos h) /\
  eeprom h' =
    (if (gamestate v =? CPU) || (gamestate v =? IDLE)
     then random v' else eeprom h) /\
  prev_move h' =
    (if gamestate v =? PLAYER then window_code (next_sample h)
     else prev_move h) /\
  cascade_i h' =
    (if gamestate v =? IDLE then cascade_i (exec cascade_leds h)
     else cascade_i h) /\
  (display_idle h -> display_idle h').
Proof.
  intros Hstep.
  destruct (Z.eqb_spec (gamestate v) CPU) as [Hc|Hnc].
  { rewrite Hc. exact (cpu_turn_devices v v' h h' Hc Hstep). }
  destruct (Z.eqb_spec (gamestate v) PLAYER) as [Hp|Hnp].
  { rewrite Hp. exact (player_turn_devices v v' h h' Hp Hstep). }
  destruct (Z.eqb_spec (gamestate v) IDLE) as [Hi|Hni].
  { exact (idle_turn_devices v v' h h' Hi Hstep). }
  exact (error_turn_devices v v' h h' Hni Hnc Hnp Hstep).
Qed.

(** *** EEPROM writes of one iteration *)

Lemma no_eeprom_write_portb_or (v : Z) : no_eeprom_write (portb_or v).
Proof. intros h. reflexivity. Qed.

Lemma no_eeprom_write_portb_and (v : Z) : no_eeprom_write (portb_and v).
Proof. intros h. reflexivity. Qed.

Lemma no_eeprom_write_set_display (x : Z) : no_eeprom_write (set_display x).
Proof. intros h. reflexivity. Qed.

Lemma no_eeprom_write_clear_display : no_eeprom_write clear_display.
Proof. intros h. reflexivity. Qed.

Lemma no_eeprom_write_delay_ms (n : Z) : no_eeprom_write (_delay_ms n).
Proof. intros h. reflexivity. Qed.

Lemma no_eeprom_write_delay_us (n : Z) : no_eeprom_write (_delay_us n).
Proof. intros h. reflexivity. Qed.

Lemma no_eeprom_write_seq (a b : io unit) :
  no_eeprom_write a -> no_eeprom_write b ->
  no_eeprom_write (bind a (fun _ => b)).
Proof. intros Ha Hb h. rewrite exec_seq, Hb, Ha. reflexivity. Qed.

Lemma no_eeprom_write_for_each {A} (l : list A) (body : A -> io unit) :
  (forall x, no_eeprom_write (body x)) -> no_eeprom_write (for_each l body).
Proof.
  intros Hbody h.
  apply (for_each_invariant
           (fun h' => eeprom_writes (log h') = eeprom_writes (log h)));
    [|reflexivity].
  intros x h' Hh'. rewrite Hbody. exact Hh'.
Qed.

Create HintDb no_eeprom_write.
#[local] Hint Resolve no_eeprom_write_portb_or no_eeprom_write_portb_and
  no_eeprom_write_set_display no_eeprom_write_clear_display
  no_eeprom_write_delay_ms no_eeprom_write_delay_us no_eeprom_write_seq
  : no_eeprom_write.

Lemma no_eeprom_write_blink_leds : no_eeprom_write blink_leds.
Proof.
  unfold blink_leds. apply no_eeprom_write_for_each. intros _.
  apply no_eeprom_write_for_each. intros j. auto 10 with no_eeprom_write.
Qed.

Lemma no_eeprom_write_error_flash : no_eeprom_write error_flash.
Proof. unfold error_flash. auto 12 with no_eeprom_write. Qed.

#[local] Hint Resolve no_eeprom_write_blink_leds : no_eeprom_write.

Lemma no_eeprom_write_game_over :
  no_eeprom_write (bind blink_leds (fun _ => bind (_delay_ms 100) (fun _ =>
                   bind blink_leds (fun _ => _delay_ms 500)))).
Proof. auto 10 with no_eeprom_write. Qed.

Lemma no_eeprom_write_feedback (m : Z) :
  no_eeprom_write (bind (set_display m) (fun _ =>
                   bind (_delay_ms 50) (fun _ =>
                   bind clear_display (fun _ =>
                   bind (_delay_ms 50) (fun _ =>
                   bind (set_display m) (fun _ =>
                   bind (_delay_ms 50) (fun _ => clear_display))))))).
Proof. auto 12 with no_eeprom_write. Qed.

Lemma playback_no_eeprom_write (mv : list Z) (indices : list Z) :
  forall h h' : hw,
  playback mv indices h = Done h' ->
  eeprom_writes (log h') = eeprom_writes (log h).
Proof.
  induction indices as [|i rest IH]; intros h h'.
  - intros [= <-]. reflexivity.
  - rewrite playback_cons. unfold load.
    destruct (mv !! Z.to_nat i) as [m|]; [|discriminate].
    cbn [rbind]. intros Hrest. rewrite (IH _ _ Hrest).
    rewrite playback_frame_unfold. reflexivity.
Qed.

Lemma get_player_move_no_eeprom_write (h : hw) :
  eeprom_writes (log (snd (get_player_move h))) = eeprom_writes (log h).
Proof.
  rewrite get_player_move_unfold. cbv zeta.
  destruct (_ =? _); reflexivity.
Qed.

(** The EEPROM writes one iteration logs: the CPU and IDLE branches log
    exactly one, of the new [random] to address 46; the PLAYER branch and
    the error branch log none. *)
Lemma iteration_eeprom_writes (v v' : vars) (h h' : hw) :
  loop_body (v, h) = Done (v', h') ->
  eeprom_writes (log h') =
    (if (gamestate v =? CPU) || (gamestate v =? IDLE)
     then [(46, random v')] else []) ++ eeprom_writes (log h).
Proof.
  destruct (Z.eqb_spec (gamestate v) CPU) as [Hc|Hnc].
  { cbn [orb]. unfold loop_body. cbn [fst snd]. rewrite Hc.
    change (CPU =? CPU) with true. cbv iota.
    unfold store. destruct (decide _); [|discriminate]. cbn [rbind].
    destruct (playback _ _ _) as [h2|] eqn:Hpb; [|discriminate].
    cbn [rbind]. intros [= <- <-].
    change (log (exec (_delay_ms 10) h2)) with (DelayMs 10 :: log h2).
    cbn [eeprom_writes random]. rewrite (playback_no_eeprom_write _ _ _ _ Hpb).
    reflexivity. }
  destruct (Z.eqb_spec (gamestate v) PLAYER) as [Hp|Hnp].
  { rewrite Hp. change (PLAYER =? IDLE) with false. cbn [orb app].
    rewrite (player_turn_unfold v h Hp). cbv zeta.
    pose proof (get_player_move_no_eeprom_write h) as Hg.
    remember (get_player_move h) as g eqn:Eg. clear Eg.
    destruct (fst g =? 0).
    { intros [= <- <-]. rewrite no_eeprom_write_clear_display. exact Hg. }
    unfold load. destruct (moves v !! _) as [m|]; [|discriminate].
    cbn [rbind].
    set (fb := exec _ (snd g)).
    assert (Hfb : eeprom_writes (log fb) = eeprom_writes (log h))
      by (unfold fb; rewrite no_eeprom_write_feedback; exact Hg).
    clearbody fb.
    destruct (fst g =? m).
    - destruct (player_counter v =? u16 (cpu_counter v - 1));
        intros [= <- <-]; [rewrite no_eeprom_write_delay_ms|]; exact Hfb.
    - intros [= <- <-]. rewrite no_eeprom_write_game_over. exact Hfb. }
  destruct (Z.eqb_spec (gamestate v) IDLE) as [Hi|Hni].
  { cbn [orb]. rewrite (idle_turn_unfold v h Hi). cbv zeta.
    set (h1 := exec read_adc _).
    assert (H1 : eeprom_writes (log h1) =
                 (46, u16 (random v + 1)) :: eeprom_writes (log h)).
    { unfold h1. rewrite !cascade_leds_unfold. reflexivity. }
    clearbody h1.
    destruct (next_sample h >? 200); intros [= <- <-]; cbn [random app].
    - rewrite no_eeprom_write_game_over. exact H1.
    - exact H1. }
  cbn [orb app]. rewrite (loop_body_error v h Hni Hnc Hnp).
  intros [= <- <-]. apply no_eeprom_write_error_flash.
Qed.

(** One iteration, device by device: only the IDLE and PLAYER branches
    sample the converter, and they take exactly one sample; only the IDLE
    and CPU branches write the EEPROM: they log exactly one write, of the
    new value of [random] to address 46, and the PLAYER and error branches
    log none; only the PLAYER branch touches the stored previous move, only
    the IDLE branch the animation position; and a dark display is dark
    again at the end, every port write in between being 0 or one LED
    pattern. *)
Theorem loop_body_devices (v v' : vars) (h h' : hw) :
  loop_body (v, h) = Done (v', h') ->
  eeprom_writes (log h') =
    (if (gamestate v =? CPU) || (gamestate v =? IDLE)
     then [(46, random v')] else []) ++ eeprom_writes (log h) /\
  adc_in h' = adc_in h /\
  adc_pos h' =
    (if (gamestate v =? PLAYER) || (gamestate v =? IDLE)
     then S (adc_pos h) else adc_pos h) /\
  eeprom h' =
    (if (gamestate v =? CPU) || (gamestate v =? IDLE)
     then random v' else eeprom h) /\
  prev_move h' =
    (if gamestate v =? PLAYER then window_code (next_sample h)
     else prev_move h) /\
  cascade_i h' =
    (if gamestate v =? IDLE then cascade_i (exec cascade_leds h)
     else cascade_i h) /\
  (display_idle h -> display_idle h').
Proof.
  intros Hstep.
  split; [exact (iteration_eeprom_writes v v' h h' Hstep)|].
  destruct (Z.eqb_spec (gamestate v) CPU) as [Hc|Hnc].
  { rewrite Hc. exact (cpu_turn_devices v v' h h' Hc Hstep). }
  destruct (Z.eqb_spec (gamestate v) PLAYER) as [Hp|Hnp].
  { rewrite Hp. exact (player_turn_devices v v' h h' Hp Hstep). }
  destruct (Z.eqb_spec (gamestate v) IDLE) as [Hi|Hni].
  { exact (idle_turn_devices v v' h h' Hi Hstep). }
  exact (error_turn_devices v v' h h' Hni Hnc Hnp Hstep).
Qed.

Lemma loop_body_devices_witness :
  (let v := Vars PLAYER ([1; 2] ++ replicate 98 0) 2 1 77 in
   let h := Hw 0 77 (fun _ => 670) O 0 0 1 [EepromWrite 46 77] in
   exists (v' : vars) (h' : hw),
     loop_body (v, h) = Done (v', h') /\
     eeprom_writes (log h') = [(46, 77)] /\
     adc_pos h' = 1%nat /\ eeprom h' = 77 /\ prev_move h' = 4) /\
  (let v := Vars IDLE (replicate 100 0) 0 0 77 in
   let h := Hw 0 77 (fun _ => 0) O 0 0 1 [EepromWrite 46 77] in
   exists (v' : vars) (h' : hw),
     loop_body (v, h) = Done (v', h') /\
     eeprom_writes (log h') = [(46, 78); (46, 77)] /\
     adc_pos h' = 1%nat /\ eeprom h' = 78).
Proof.
  split.
  - intros v h.
    destruct (loop_body (v, h)) as [[v' h']|i] eqn:E;
      [|vm_compute in E; discriminate].
    exists v', h'. split; [reflexivity|].
    destruct (loop_body_devices v v' h h' E) as (Hw' & _ & Hpos & He & Hp & _).
    auto.
  - intros v h.
    destruct (loop_body (v, h)) as [[v' h']|i] eqn:E;
      [|vm_compute in E; discriminate].
    assert (Hr : random v' = 78).
    { vm_compute in E. injection E as <- _. reflexivity. }
    exists v', h'. split; [reflexivity|].
    destruct (loop_body_devices v v' h h' E) as (Hw' & _ & Hpos & He & _).
    rewrite Hw', He, Hpos, Hr. auto.
Defined.

(** ** How one iteration changes the game variables *)

Lemma player_turn_vars (v v' : vars) (h h' : hw) :
  gamestate v = PLAYER -> loop_body (v, h) = Done (v', h') ->
  moves v' = moves v /\ random v' = random v /\
  (cpu_counter v' = cpu_counter v \/
   (gamestate v' = IDLE /\ cpu_counter v' = 0 /\ player_counter v' = 0)).
Proof.
  intros Hp. rewrite (player_turn_unfold v h Hp). cbv zeta.
  remember (get_player_move h) as g eqn:Eg. clear Eg.
  destruct (fst g =? 0); [intros [= <- <-]; auto|].
  unfold load. destruct (moves v !! _) as [m|]; [|discriminate].
  cbn [rbind]. set (fb := exec _ (snd g)). clearbody fb.
  destruct (fst g =? m).
  - destruct (player_counter v =? u16 (cpu_counter v - 1));
      intros [= <- <-]; cbn [moves cpu_counter random]; auto.
  - intros [= <- <-]. cbn [moves cpu_counter random gamestate player_counter].
    auto 6.
Qed.

Lemma idle_turn_vars (v v' : vars) (h h' : hw) :
  gamestate v = IDLE -> loop_body (v, h) = Done (v', h') ->
  moves v' = moves v /\ cpu_counter v' = cpu_counter v /\
  player_counter v' = player_counter v /\
  random v' = u16 (random v + 1) /\
  gamestate v' = (if next_sample h >? 200 then CPU else IDLE).
Proof.
  intros Hi. rewrite (idle_turn_unfold v h Hi). cbv zeta.
  set (h1 := exec read_adc _). clearbody h1.
  destruct (next_sample h >? 200); intros [= <- <-]; repeat split.
Qed.

Lemma iteration_vars (v v' : vars) (h h' : hw) :
  loop_body (v, h) = Done (v', h') ->
  length (moves v') = length (moves v) /\
  (gamestate v <> CPU -> gamestate v <> IDLE -> random v' = random v) /\
  ((cpu_counter v' = cpu_counter v /\ moves v' = moves v) \/
   (gamestate v = CPU /\ gamestate v' = PLAYER /\
    cpu_counter v' = u16 (cpu_counter v + 1) /\
    (Z.to_nat (cpu_counter v) < length (moves v))%nat /\
    forall i, i <> Z.to_nat (cpu_counter v) ->
              moves v' !! i = moves v !! i) \/
   (gamestate v = PLAYER /\ gamestate v' = IDLE /\
    cpu_counter v' = 0 /\ player_counter v' = 0 /\ moves v' = moves v)).
Proof.
  intros Hstep.
  destruct (Z.eqb_spec (gamestate v) CPU) as [Hc|Hnc].
  { destruct (loop_body_cpu v h (v', h') Hc Hstep) as [Hin Hv'].
    cbn [fst] in Hv'. subst v'. cbn [moves cpu_counter gamestate random].
    rewrite length_insert. split; [reflexivity|]. split; [contradiction|].
    right; left. repeat split; try assumption.
    intros i Hi. apply list_lookup_insert_ne. congruence. }
  destruct (Z.eqb_spec (gamestate v) PLAYER) as [Hp|Hnp].
  { destruct (player_turn_vars v v' h h' Hp Hstep)
      as (Em & Er & [Ec | (Hi' & Ec & Epc)]).
    - rewrite Em. split; [reflexivity|]. split; [auto|]. left. auto.
    - rewrite Em. split; [reflexivity|]. split; [auto|].
      right; right. auto. }
  destruct (Z.eqb_spec (gamestate v) IDLE) as [Hi|Hni].
  { destruct (idle_turn_vars v v' h h' Hi Hstep) as (Em & Ec & _).
    rewrite Em. split; [reflexivity|]. split; [contradiction|]. left. auto. }
  rewrite (loop_body_error v h Hni Hnc Hnp) in Hstep.
  injection Hstep as <- _. auto.
Qed.

(** The move sequence is append-only.  An iteration either leaves
    [cpu_counter] and the array alone, or is a CPU turn that writes the one
    cell at [cpu_counter] and counts it, or is a failed player move that
    sets [cpu_counter] to 0 and leaves the cells as they are; and [random]
    is changed by the CPU and IDLE branches only. *)
Theorem moves_append_only (v v' : vars) (h h' : hw) :
  loop_body (v, h) = Done (v', h') ->
  length (moves v') = length (moves v) /\
  (gamestate v <> CPU -> gamestate v <> IDLE -> random v' = random v) /\
  ((cpu_counter v' = cpu_counter v /\ moves v' = moves v) \/
   (gamestate v = CPU /\ gamestate v' = PLAYER /\
    cpu_counter v' = u16 (cpu_counter v + 1) /\
    (Z.to_nat (cpu_counter v) < length (moves v))%nat /\
    forall i, i <> Z.to_nat (cpu_counter v) ->
              moves v' !! i = moves v !! i) \/
   (gamestate v = PLAYER /\ gamestate v' = IDLE /\
    cpu_counter v' = 0 /\ player_counter v' = 0 /\ moves v' = moves v)).
Proof.
  intros Hstep.
  destruct (Z.eqb_spec (gamestate v) CPU) as [Hc|Hnc].
  { destruct (loop_body_cpu v h (v', h') Hc Hstep) as [Hin Hv'].
    cbn [fst] in Hv'. subst v'. cbn [moves cpu_counter gamestate random].
    rewrite length_insert. split; [reflexivity|]. split; [contradiction|].
    right; left. repeat split; try assumption.
    intros i Hi. apply list_lookup_insert_ne. congruence. }
  destruct (Z.eqb_spec (gamestate v) PLAYER) as [Hp|Hnp].
  { destruct (player_turn_vars v v' h h' Hp Hstep)
      as (Em & Er & [Ec | (Hi' & Ec & Epc)]).
    - rewrite Em. split; [reflexivity|]. split; [auto|]. left. auto.
    - rewrite Em. split; [reflexivity|]. split; [auto|].
      right; right. auto. }
  destruct (Z.eqb_spec (gamestate v) IDLE) as [Hi|Hni].
  { destruct (idle_turn_vars v v' h h' Hi Hstep) as (Em & Ec & _).
    rewrite Em. split; [reflexivity|]. split; [contradiction|]. left. auto. }
  rewrite (loop_body_error v h Hni Hnc Hnp) in Hstep.
  injection Hstep as <- _. auto.
Qed.

Lemma moves_append_only_witness :
  let v := Vars PLAYER ([1; 2] ++ replicate 98 0) 2 1 77 in
  let h := Hw 0 77 (fun _ => 670) O 0 0 1 [] in
  exists (v' : vars) (h' : hw),
    loop_body (v, h) = Done (v', h') /\ length (moves v') = 100%nat.
Proof.
  intros v h.
  destruct (loop_body (v, h)) as [[v' h']|i] eqn:E;
    [|vm_compute in E; discriminate].
  exists v', h'. split; [reflexivity|].
  destruct (moves_append_only v v' h h' E) as [Hlen _].
  rewrite Hlen. reflexivity.
Defined.

(** ** Invariants of the devices *)

Lemma run_preserves (P : vars * hw -> Prop) :
  (forall s s', P s -> loop_body s = Done s' -> P s') ->
  forall n s s', P s -> run n s = Done s' -> P s'.
Proof.
  intros Hstep. induction n as [|n IH]; intros s s' Hs; cbn [run].
  - intros [= <-]. exact Hs.
  - destruct (loop_body s) as [s1|] eqn:E; [|discriminate].
    cbn [rbind]. apply IH. exact (Hstep s s1 Hs E).
Qed.

(** Between iterations the LEDs are off, and the whole history of the port
    shows one LED at a time: in every state reached from boot, port B is 0,
    every value ever written to it is 0 or one of the four LED patterns
    (never two patterns or-ed together, never a bit above bit 2), and every
    EEPROM write went to address 46. *)
Theorem display_one_led_at_a_time (seed : Z) (junk : list Z)
    (adc : nat -> Z) (s : vars * hw) :
  reachable seed junk adc s ->
  PORTB (snd s) = 0 /\ Forall event_ok (log (snd s)).
Proof.
  intros [n Hrun].
  apply (run_preserves (fun s => display_idle (snd s))) in Hrun.
  - exact Hrun.
  - intros [v h] [v' h'] Hs Hstep. cbn [snd] in *.
    apply (iteration_devices v v' h h' Hstep). exact Hs.
  - split; [reflexivity|]. repeat constructor.
Qed.

Lemma display_one_led_at_a_time_witness :
  exists s : vars * hw,
    run 2 (boot 0 (replicate 100 0) (stream_of [201])) = Done s /\
    PORTB (snd s) = 0 /\ Forall event_ok (log (snd s)).
Proof.
  assert (Hsum : summary (run 2 (boot 0 (replicate 100 0) (stream_of [201])))
                 = Done (PLAYER, 1, 0, 1)) by (vm_compute; reflexivity).
  destruct (run 2 (boot 0 (replicate 100 0) (stream_of [201])))
    as [s|i] eqn:E; [|discriminate].
  exists s. split; [reflexivity|].
  apply (display_one_led_at_a_time 0 (replicate 100 0) (stream_of [201]) s).
  exists 2%nat. exact E.
Defined.

(** The EEPROM always holds the generator state: in every state reached
    from boot the word at address 46 equals [random], so a reset at any
    point between iterations resumes from the current state. *)
Theorem eeprom_tracks_random (seed : Z) (junk : list Z)
    (adc : nat -> Z) (s : vars * hw) :
  reachable seed junk adc s ->
  eeprom (snd s) = random (fst s).
Proof.
  intros [n Hrun].
  apply (run_preserves (fun s => eeprom (snd s) = random (fst s))) in Hrun.
  - exact Hrun.
  - intros [v h] [v' h'] Hs Hstep. cbn [fst snd] in *.
    destruct (iteration_devices v v' h h' Hstep) as (_ & _ & He & _).
    destruct (iteration_vars v v' h h' Hstep) as (_ & Hr & _).
    rewrite He.
    destruct (Z.eqb_spec (gamestate v) CPU); [reflexivity|].
    destruct (Z.eqb_spec (gamestate v) IDLE); [reflexivity|].
    cbn [orb]. rewrite Hs. symmetry. apply Hr; assumption.
  - reflexivity.
Qed.

Lemma eeprom_tracks_random_witness :
  exists s : vars * hw,
    run 2 (boot 0 (replicate 100 0) (stream_of [201])) = Done s /\
    eeprom (snd s) = random (fst s).
Proof.
  assert (Hsum : summary (run 2 (boot 0 (replicate 100 0) (stream_of [201])))
                 = Done (PLAYER, 1, 0, 1)) by (vm_compute; reflexivity).
  destruct (run 2 (boot 0 (replicate 100 0) (stream_of [201])))
    as [s|i] eqn:E; [|discriminate].
  exists s. split; [reflexivity|].
  apply (eeprom_tracks_random 0 (replicate 100 0) (stream_of [201]) s).
  exists 2%nat. exact E.
Defined.

(** ** Waiting in IDLE and in the player's turn *)

Lemma sample_at_shift (h h' : hw) (k : nat) :
  adc_in h' = adc_in h -> adc_pos h' = S (adc_pos h) ->
  sample_at h' k = sample_at h (S k).
Proof.
  intros Hin Hpos. unfold sample_at. rewrite Hin, Hpos.
  f_equal. f_equal. lia.
Qed.

Lemma u16_succ (x : Z) : u16 (u16 x + 1) = u16 (x + 1).
Proof. unfold u16. rewrite Z.add_mod_idemp_l by lia. reflexivity. Qed.

Lemma idle_random_next (r : Z) (n : nat) :
  u16 ((if n is O then r else u16 (r + Z.of_nat n)) + 1) =
  u16 (r + Z.of_nat (S n)).
Proof.
  destruct n as [|n]; [f_equal; lia|]. rewrite u16_succ. f_equal. lia.
Qed.

(** The idle loop.  While the samples stay at or below 200 the machine stays
    in IDLE: each iteration takes one sample, adds 1 to [random] modulo
    2^16 and leaves the counters and the array alone.  The first sample
    above 200 starts the game: the state becomes CPU in that same
    iteration, [random] having been incremented once more. *)
Theorem idle_waits_for_activation (v : vars) (h : hw) (n : nat) :
  gamestate v = IDLE ->
  (forall k, (k < n)%nat -> sample_at h k <= 200) ->
  exists h' : hw,
    run n (v, h) =
      Done (Vars IDLE (moves v) (cpu_counter v) (player_counter v)
                 (if n is O then random v else u16 (random v + Z.of_nat n)),
            h') /\
    adc_in h' = adc_in h /\ adc_pos h' = (adc_pos h + n)%nat /\
    (sample_at h n > 200 ->
     exists h'' : hw,
       run (S n) (v, h) =
         Done (Vars CPU (moves v) (cpu_counter v) (player_counter v)
                    (u16 (random v + Z.of_nat (S n))), h'')).
Proof.
  intros Hgs Hquiet.
  assert (Hrun : exists h' : hw,
            run n (v, h) =
              Done (Vars IDLE (moves v) (cpu_counter v) (player_counter v)
                      (if n is O then random v
                       else u16 (random v + Z.of_nat n)), h') /\
            adc_in h' = adc_in h /\ adc_pos h' = (adc_pos h + n)%nat).
  { induction n as [|n IH].
    - exists h. destruct v as [g m c p r]. cbn in Hgs. subst g.
      split; [reflexivity|]. split; [reflexivity | cbn; lia].
    - destruct IH as (h1 & Hrun & Hin & Hpos); [intros k Hk; apply Hquiet; lia|].
      rewrite run_snoc, Hrun. cbn [rbind].
      set (v1 := Vars _ _ _ _ _).
      assert (Hg1 : gamestate v1 = IDLE) by reflexivity.
      assert (Hs1 : next_sample h1 <= 200).
      { rewrite <- sample_at_0. unfold sample_at. rewrite Hin, Hpos.
        rewrite Nat.add_0_r. apply (Hquiet n). lia. }
      destruct (loop_body (v1, h1)) as [[v2 h2]|i] eqn:E.
      + pose proof (iteration_devices v1 v2 h1 h2 E) as (Din & Dpos & _).
        rewrite Hg1 in Dpos. cbn in Dpos.
        rewrite (idle_turn_unfold v1 h1 Hg1) in E. cbv zeta in E.
        destruct (Z.gtb_spec (next_sample h1) 200) as [Hgt|_]; [lia|].
        injection E as <- _. exists h2.
        split; [|split; [congruence | lia]].
        rewrite (idle_random_next (random v) n). reflexivity.
      + rewrite (idle_turn_unfold v1 h1 Hg1) in E. cbv zeta in E.
        destruct (next_sample h1 >? 200); discriminate. }
  destruct Hrun as (h1 & Hrun & Hin & Hpos).
  exists h1. split; [exact Hrun|]. split; [exact Hin|]. split; [exact Hpos|].
  intros Hact. rewrite run_snoc, Hrun. cbn [rbind].
  set (v1 := Vars _ _ _ _ _).
  assert (Hg1 : gamestate v1 = IDLE) by reflexivity.
  assert (Hs1 : next_sample h1 > 200).
  { rewrite <- sample_at_0. unfold sample_at. rewrite Hin, Hpos.
    rewrite Nat.add_0_r. exact Hact. }
  rewrite (idle_turn_unfold v1 h1 Hg1). cbv zeta.
  destruct (Z.gtb_spec (next_sample h1) 200) as [_|Hle]; [|lia].
  eexists. unfold v1. cbn [moves cpu_counter player_counter random].
  rewrite (idle_random_next (random v) n). reflexivity.
Qed.

Lemma idle_waits_for_activation_witness :
  let v := Vars IDLE (replicate 100 0) 0 0 65534 in
  let h := Hw 0 65534 (fun k => if Nat.ltb k 3 then 150 else 300) O 0 0 1 [] in
  exists h'' : hw,
    run 4 (v, h) = Done (Vars CPU (replicate 100 0) 0 0 2, h'').
Proof.
  intros v h.
  destruct (idle_waits_for_activation v h 3) as (h' & _ & _ & _ & Hact).
  - reflexivity.
  - intros k Hk. unfold sample_at, h. cbn [adc_in adc_pos Nat.add].
    destruct k as [|[|[|k]]]; [vm_compute; discriminate .. | lia].
  - apply Hact. vm_compute. reflexivity.
Defined.

(** In the player's turn nothing happens without a fresh move: while the
    sample is held with its code equal to the stored previous move (a
    button kept down after its press, or no button with no press before),
    any number of iterations leaves [gamestate], the counters, the array
    and [random] unchanged.  There is no timeout, and a held button is not
    entered twice. *)
Theorem player_turn_waits (v : vars) (raw : Z) (n : nat) : forall h : hw,
  gamestate v = PLAYER ->
  held h raw n -> window_code raw = prev_move h ->
  exists h' : hw,
    run n (v, h) = Done (v, h') /\
    prev_move h' = prev_move h /\ adc_pos h' = (adc_pos h + n)%nat.
Proof.
  induction n as [|n IH]; intros h Hgs Hheld Hcode.
  - exists h. split; [reflexivity|]. split; [reflexivity | lia].
  - apply held_next in Hheld as [Hraw Hheld].
    destruct (get_player_move_result h) as (Hret & Hprev & Hpos & Hin).
    rewrite Hraw in Hret, Hprev. rewrite Hcode, Z.eqb_refl in Hret.
    cbn [run]. rewrite (player_turn_unfold v h Hgs). cbv zeta.
    rewrite Hret. change (0 =? 0) with true. cbv iota. cbn [rbind].
    set (h1 := exec clear_display (snd (get_player_move h))).
    assert (F : same_devices (snd (get_player_move h)) h1)
      by apply display_only_clear_display.
    destruct F as (F1 & F2 & F3 & F4 & F5 & F6).
    destruct (IH h1 Hgs) as (h' & Hrun & Hp & Hpos').
    + intros k Hk. unfold sample_at. rewrite F2, F3.
      exact (Hheld k Hk).
    + rewrite F4, Hprev. reflexivity.
    + exists h'. split; [exact Hrun|].
      rewrite Hp, Hpos', F4, F3, Hprev, Hpos, Hcode.
      split; [reflexivity | lia].
Qed.

Lemma player_turn_waits_witness :
  let v := Vars PLAYER ([1; 2] ++ replicate 98 0) 2 1 77 in
  let h := Hw 0 77 (fun _ => 510) O 1 0 1 [] in
  exists h' : hw, run 5 (v, h) = Done (v, h').
Proof.
  intros v h.
  destruct (player_turn_waits v 510 5 h) as (h' & Hrun & _).
  - reflexivity.
  - intros k Hk. reflexivity.
  - reflexivity.
  - exists h'. exact Hrun.
Defined.

(** ** Faults *)

(** The overflow of C1 is the only fault.  From every state reached from
    boot the next iteration completes, except in state CPU with
    [cpu_counter = MAX_MOVES], where it stores at index [MAX_MOVES]; in
    particular the player's turn never reads outside the array. *)
Theorem faults_only_at_overflow (seed : Z) (junk : list Z)
    (adc : nat -> Z) (s : vars * hw) :
  length junk = Z.to_nat MAX_MOVES ->
  reachable seed junk adc s ->
  (exists s', loop_body s = Done s') \/
  (gamestate (fst s) = CPU /\ cpu_counter (fst s) = MAX_MOVES /\
   loop_body s = OutOfBounds MAX_MOVES).
Proof.
  intros Hlen Hreach.
  pose proof (reachable_inv seed junk adc s Hlen Hreach)
    as (Hl & Hcc & _ & Hgs & Hpl & _).
  destruct s as [v h]. cbn [fst] in *. unfold MAX_MOVES in *.
  destruct Hgs as [Hgs | [Hgs | Hgs]].
  - left. rewrite (idle_turn_unfold v h Hgs). cbv zeta.
    destruct (next_sample h >? 200); eexists; reflexivity.
  - destruct (Z.eq_dec (cpu_counter v) 100) as [E|N].
    + right. split; [exact Hgs|]. split; [exact E|].
      unfold loop_body. cbn [fst snd]. rewrite Hgs.
      change (CPU =? CPU) with true. cbv iota.
      unfold store. destruct (decide _) as [Hin|_]; [lia|].
      cbn [rbind]. rewrite E. reflexivity.
    + left. unfold loop_body. cbn [fst snd]. rewrite Hgs.
      change (CPU =? CPU) with true. cbv iota.
      unfold store. destruct (decide _) as [_|Hout]; [|lia].
      cbn [rbind].
      match goal with |- context [playback ?m ?l ?h0] =>
        destruct (playback_total m l h0) as [h2 Hpb] end.
      { intros i Hi%elem_of_seqZ. apply lookup_lt_is_Some_2.
        rewrite length_insert. lia. }
      rewrite Hpb. cbn [rbind]. eexists. reflexivity.
  - left. specialize (Hpl Hgs).
    rewrite (player_turn_unfold v h Hgs). cbv zeta.
    destruct (fst (get_player_move h) =? 0); [eexists; reflexivity|].
    unfold load.
    destruct (lookup_lt_is_Some_2 (moves v) (Z.to_nat (player_counter v)))
      as [m Hm]; [lia|].
    rewrite Hm. cbn [rbind].
    destruct (fst (get_player_move h) =? m);
      [destruct (player_counter v =? u16 (cpu_counter v - 1))|];
      eexists; reflexivity.
Qed.

Lemma faults_only_at_overflow_witness :
  exists s : vars * hw,
    run 2 (boot 0 (replicate 100 0) (stream_of [201])) = Done s /\
    exists s', loop_body s = Done s'.
Proof.
  assert (Hsum : summary (run 2 (boot 0 (replicate 100 0) (stream_of [201])))
                 = Done (PLAYER, 1, 0, 1)) by (vm_compute; reflexivity).
  destruct (run 2 (boot 0 (replicate 100 0) (stream_of [201])))
    as [s|i] eqn:E; [|discriminate].
  cbn [summary] in Hsum. injection Hsum as Hgs _ _ _.
  exists s. split; [reflexivity|].
  destruct (faults_only_at_overflow 0 (replicate 100 0) (stream_of [201]) s)
    as [Hok | (Hcpu & _)].
  - reflexivity.
  - exists 2%nat. exact E.
  - exact Hok.
  - rewrite Hgs in Hcpu. discriminate.
Defined.

(** ** The sequence is the generator's output *)

Lemma lcg_iter_succ_r (n : N) (s : Z) :
  lcg_iter (N.succ n) s = lcg_iter n (lcg_step s).
Proof.
  replace (N.succ n) with (n + 1)%N by lia. rewrite lcg_iter_add.
  reflexivity.
Qed.

Lemma cpu_moves_snoc (n : nat) : forall r : Z,
  cpu_moves (S n) r =
    cpu_moves n r ++ [move_of_random (lcg_iter (N.of_nat (S n)) r)].
Proof.
  induction n as [|n IH]; intros r; [reflexivity|].
  change (cpu_moves (S (S n)) r)
    with (move_of_random (lcg_step r) :: cpu_moves (S n) (lcg_step r)).
  rewrite IH. cbn [cpu_moves app]. do 3 f_equal.
  rewrite (Nat2N.inj_succ (S n)), lcg_iter_succ_r. reflexivity.
Qed.

Lemma idle_entered_with_empty_sequence (v v' : vars) (h h' : hw) :
  loop_body (v, h) = Done (v', h') ->
  gamestate v' = IDLE ->
  (gamestate v = IDLE /\ cpu_counter v' = cpu_counter v) \/
  cpu_counter v' = 0.
Proof.
  destruct (Z.eqb_spec (gamestate v) CPU) as [Hc|Hnc].
  - intros Hstep. destruct (loop_body_cpu v h (v', h') Hc Hstep) as [_ Hv'].
    cbn [fst] in Hv'. subst v'. discriminate.
  - destruct (Z.eqb_spec (gamestate v) PLAYER) as [Hp|Hnp].
    + rewrite (player_turn_unfold v h Hp). cbv zeta.
      remember (get_player_move h) as g eqn:Eg. clear Eg.
      destruct (fst g =? 0);
        [intros [= <- <-] Hi'; rewrite Hp in Hi'; discriminate|].
      unfold load. destruct (moves v !! _) as [m|]; [|discriminate].
      cbn [rbind]. set (fb := exec _ (snd g)). clearbody fb.
      destruct (fst g =? m).
      * destruct (player_counter v =? u16 (cpu_counter v - 1));
          intros [= <- <-]; discriminate.
      * intros [= <- <-]. right. reflexivity.
    + destruct (Z.eqb_spec (gamestate v) IDLE) as [Hi|Hni].
      * rewrite (idle_turn_unfold v h Hi). cbv zeta.
        set (h1 := exec read_adc _). clearbody h1.
        destruct (next_sample h >? 200); intros [= <- <-]; auto.
      * rewrite (loop_body_error v h Hni Hnc Hnp). intros [= <- <-].
        contradiction.
Qed.

(** The sequence to repeat is the output stream of the generator.  In
    every state reached from boot there is a 16-bit state [r0] (the value of
    [random] when the current game started) such that the stored moves
    [moves[0 .. cpu_counter)] are decoded from the first [cpu_counter]
    iterates of [rand_lcg] from [r0], and [random] is the last of these
    iterates. *)
Theorem sequence_from_generator (seed : Z) (junk : list Z)
    (adc : nat -> Z) (s : vars * hw) :
  length junk = Z.to_nat MAX_MOVES ->
  reachable seed junk adc s ->
  exists r0 : Z,
    0 <= r0 < 65536 /\
    random (fst s) = lcg_iter (Z.to_N (cpu_counter (fst s))) r0 /\
    take (Z.to_nat (cpu_counter (fst s))) (moves (fst s)) =
      cpu_moves (Z.to_nat (cpu_counter (fst s))) r0.
Proof.
  intros Hlen [n Hrun].
  set (Q := fun v : vars =>
              exists r0 : Z,
                0 <= r0 < 65536 /\
                random v = lcg_iter (Z.to_N (cpu_counter v)) r0 /\
                take (Z.to_nat (cpu_counter v)) (moves v) =
                  cpu_moves (Z.to_nat (cpu_counter v)) r0).
  assert (Hfresh : forall v : vars,
            cpu_counter v = 0 -> 0 <= random v < 65536 -> Q v).
  { intros v H0 Hr. exists (random v). rewrite H0.
    split; [exact Hr|]. split; reflexivity. }
  assert (Hrange : forall v : vars, 0 <= cpu_counter v -> Q v ->
            0 <= random v < 65536).
  { intros v Hc (r0 & Hr0 & Hr & _). rewrite Hr.
    destruct (Z.to_N (cpu_counter v)) as [|p] eqn:E; [exact Hr0|].
    rewrite <- (N.succ_pred (N.pos p)) by discriminate.
    rewrite lcg_iter_succ. pose proof (lcg_step_range
      (lcg_iter (N.pred (N.pos p)) r0)). lia. }
  apply (run_preserves
           (fun s => game_inv (fst s) /\
                     (gamestate (fst s) = IDLE -> cpu_counter (fst s) = 0) /\
                     Q (fst s))) in Hrun.
  - exact (proj2 (proj2 Hrun)).
  - intros [v h] [v' h'] (Hinv & Hidle0 & HQ) Hstep. cbn [fst] in *.
    split; [exact (loop_body_inv v h (v', h') Hinv Hstep)|].
    split.
    { intros Hi'.
      destruct (idle_entered_with_empty_sequence v v' h h' Hstep Hi')
        as [[Hi Ec] | E0]; [rewrite Ec; exact (Hidle0 Hi) | exact E0]. }
    pose proof (loop_body_inv v h (v', h') Hinv Hstep) as Hinv'.
    cbn [fst] in Hinv'.
    destruct Hinv as (Hl & Hcc & _). unfold MAX_MOVES in *.
    pose proof (Hrange v (proj1 Hcc) HQ) as Hr.
    destruct (Z.eqb_spec (gamestate v) IDLE) as [Hi|Hni].
    + (* IDLE: the counter is unchanged, and it is 0 *)
      rewrite (idle_turn_unfold v h Hi) in Hstep. cbv zeta in Hstep.
      assert (Hv' : cpu_counter v' = cpu_counter v /\ moves v' = moves v /\
                    random v' = u16 (random v + 1)).
      { destruct (next_sample h >? 200); injection Hstep as <- _;
          repeat split. }
      destruct Hv' as (Ec & Em & Er).
      apply Hfresh; [rewrite Ec; exact (Hidle0 Hi) |].
      rewrite Er. apply u16_range.
    + destruct (iteration_vars v v' h h' Hstep)
        as (_ & Hrnd & [[Ec Em] | [(Hc & _ & Ec & Hin & Hoth) | (Hp & _ & Ec & _ & Em)]]).
      * destruct (Z.eqb_spec (gamestate v) CPU) as [Hc|Hnc].
        -- exfalso. destruct (loop_body_cpu v h (v', h') Hc Hstep) as [Hin Hv'].
           cbn [fst] in Hv'. rewrite Hv' in Ec. cbn [cpu_counter] in Ec.
           rewrite u16_small in Ec by lia. lia.
        -- destruct HQ as (r0 & Hr0 & HR & HT). exists r0.
           rewrite Ec, Em, (Hrnd Hnc Hni). auto.
      * destruct HQ as (r0 & Hr0 & HR & HT). exists r0.
        destruct (loop_body_cpu v h (v', h') Hc Hstep) as [_ Hv'].
        cbn [fst] in Hv'. subst v'. cbn [random cpu_counter moves].
        rewrite u16_small by lia.
        replace (Z.to_N (cpu_counter v + 1))
          with (N.succ (Z.to_N (cpu_counter v))) by lia.
        replace (Z.to_nat (cpu_counter v + 1))
          with (S (Z.to_nat (cpu_counter v))) by lia.
        split; [exact Hr0|]. split.
        -- rewrite lcg_iter_succ, <- HR. reflexivity.
        -- rewrite cpu_moves_snoc, <- HT.
           rewrite (take_S_r _ _ (move_of_random
                      (rand_lcg (random v) MAX_PERIOD MULTIPLIER C)))
             by (apply list_lookup_insert_eq; exact Hin).
           rewrite take_insert_ge by lia. do 3 f_equal.
           rewrite Nat2N.inj_succ, lcg_iter_succ.
           replace (N.of_nat (Z.to_nat (cpu_counter v)))
             with (Z.to_N (cpu_counter v)) by lia.
           rewrite <- HR. reflexivity.
      * apply Hfresh; [exact Ec|].
        assert (Hnc : gamestate v <> CPU) by (rewrite Hp; discriminate).
        rewrite (Hrnd Hnc Hni). exact Hr.
  - split; [apply boot_inv; exact Hlen|]. split; [reflexivity|].
    apply Hfresh; [reflexivity | apply u16_range].
Qed.

Lemma sequence_from_generator_witness :
  exists (s : vars * hw) (r0 : Z),
    run 2 (boot 0 (replicate 100 0) (stream_of [201])) = Done s /\
    cpu_counter (fst s) = 1 /\
    take 1 (moves (fst s)) = cpu_moves 1 r0.
Proof.
  assert (Hsum : summary (run 2 (boot 0 (replicate 100 0) (stream_of [201])))
                 = Done (PLAYER, 1, 0, 1)) by (vm_compute; reflexivity).
  destruct (run 2 (boot 0 (replicate 100 0) (stream_of [201])))
    as [s|i] eqn:E; [|discriminate].
  cbn [summary] in Hsum. injection Hsum as _ Hcc _ _.
  destruct (sequence_from_generator 0 (replicate 100 0) (stream_of [201]) s)
    as (r0 & _ & _ & Ht).
  - reflexivity.
  - exists 2%nat. exact E.
  - exists s, r0. rewrite Hcc in Ht. split; [reflexivity|].
    split; [exact Hcc | exact Ht].
Defined.

(** ** Why the generator output is reduced below 2^15 *)

(** The move is decoded from bits 13 and up of a 16-bit value.  Below 32768
    these are the top two of fifteen bits, and the four quarters of the
    range give the moves 0x01, 0x02, 0x04, 0x08 in order.  With bit 15 set
    the shift would give 0x10 .. 0x80: not a move, shown by [led_display]
    as nothing, and equal to no code the classifier can return, so that the
    player could not answer it. *)
Theorem move_of_random_top_bits (r : Z) :
  0 <= r < 65536 ->
  (r < 32768 ->
   move_of_random r = nth (Z.to_nat (r / 8192)) [1; 2; 4; 8] 0) /\
  (one_hot (move_of_random r) <-> r < 32768) /\
  (32768 <= r ->
   led_display (move_of_random r) = 0 /\
   forall raw, window_code raw <> move_of_random r).
Proof.
  intros Hr. unfold move_of_random.
  rewrite Z.shiftr_div_pow2 by lia. change (2 ^ 13) with 8192.
  assert (Hq : 0 <= r / 8192 < 8).
  { split; [apply Z.div_pos; lia | apply Z.div_lt_upper_bound; lia]. }
  assert (Hlow : r < 32768 <-> r / 8192 < 4).
  { split; intros H.
    - apply Z.div_lt_upper_bound; lia.
    - destruct (Z.lt_ge_cases r 32768) as [|Hge]; [assumption|].
      assert (4 <= r / 8192) by (apply Z.div_le_lower_bound; lia). lia. }
  assert (Hc : r / 8192 = 0 \/ r / 8192 = 1 \/ r / 8192 = 2 \/ r / 8192 = 3 \/
               r / 8192 = 4 \/ r / 8192 = 5 \/ r / 8192 = 6 \/ r / 8192 = 7)
    by lia.
  assert (Hwc : forall raw, window_code raw = 0 \/ one_hot (window_code raw)).
  { intros raw. unfold one_hot.
    destruct (window_code_cases raw)
      as [[_ ->]|[[_ ->]|[[_ ->]|[[_ ->]|(_ & _ & _ & _ & ->)]]]]; auto. }
  split; [|split].
  - intros Hlt. apply Hlow in Hlt.
    destruct Hc as [E|[E|[E|[E|Hc]]]]; try lia; rewrite E; reflexivity.
  - rewrite Hlow. unfold one_hot.
    destruct Hc as [E|[E|[E|[E|[E|[E|[E|E]]]]]]]; rewrite E;
      vm_compute; split; intros H; try reflexivity; try discriminate; auto;
      try (destruct H as [H|[H|[H|H]]]; discriminate).
  - intros Hge. assert (Hhigh : 4 <= r / 8192) by lia.
    destruct Hc as [E|[E|[E|[E|[E|[E|[E|E]]]]]]]; try lia; rewrite E;
      (split; [reflexivity|]); intros raw;
      destruct (Hwc raw) as [-> | [-> | [-> | [-> | ->]]]];
      vm_compute; discriminate.
Qed.

Lemma move_of_random_top_bits_witness :
  move_of_random 20000 = 4 /\ led_display (move_of_random 40000) = 0.
Proof.
  destruct (move_of_random_top_bits 20000) as (H1 & _); [lia|].
  destruct (move_of_random_top_bits 40000) as (_ & _ & H3); [lia|].
  split; [rewrite H1 by lia; reflexivity | apply H3; lia].
Defined.

(** ** A correct replay is accepted *)

Lemma run_add (a b : nat) : forall s : vars * hw,
  run (a + b) s = rbind (run a s) (run b).
Proof.
  induction a as [|a IH]; intros s; [reflexivity|].
  cbn [Nat.add run]. destruct (loop_body s) as [s1|i]; cbn [rbind]; auto.
Qed.

Lemma player_release_step (v : vars) (h : hw) :
  gamestate v = PLAYER -> window_code (next_sample h) = 0 ->
  exists h1 : hw,
    loop_body (v, h) = Done (v, h1) /\
    adc_in h1 = adc_in h /\ adc_pos h1 = S (adc_pos h) /\ prev_move h1 = 0.
Proof.
  intros Hgs Hcode.
  destruct (get_player_move_result h) as (Hret & _).
  rewrite Hcode in Hret.
  assert (Hret0 : fst (get_player_move h) = 0)
    by (rewrite Hret; destruct (0 =? prev_move h); reflexivity).
  assert (Hstep : loop_body (v, h) =
                  Done (v, exec clear_display (snd (get_player_move h)))).
  { rewrite (player_turn_unfold v h Hgs). cbv zeta. rewrite Hret0.
    reflexivity. }
  eexists. split; [exact Hstep|].
  destruct (iteration_devices _ _ _ _ Hstep) as (Din & Dpos & _ & Dprev & _).
  rewrite Hgs in Dpos, Dprev. change (PLAYER =? PLAYER) with true in *.
  cbn [orb] in Dpos. cbv iota in Dpos, Dprev.
  rewrite Hcode in Dprev. auto.
Qed.

Lemma player_press_step (v : vars) (h : hw) (code : Z) :
  gamestate v = PLAYER ->
  window_code (next_sample h) = code -> code <> 0 -> prev_move h <> code ->
  moves v !! Z.to_nat (player_counter v) = Some code ->
  1 <= cpu_counter v < 65536 ->
  0 <= player_counter v < cpu_counter v ->
  exists h1 : hw,
    loop_body (v, h) =
      Done (if player_counter v =? cpu_counter v - 1
            then Vars CPU (moves v) (cpu_counter v) 0 (random v)
            else Vars PLAYER (moves v) (cpu_counter v)
                      (player_counter v + 1) (random v), h1) /\
    adc_in h1 = adc_in h /\ adc_pos h1 = S (adc_pos h) /\
    prev_move h1 = code.
Proof.
  intros Hgs Hcode Hnz Hprev Hload Hcc Hpc.
  destruct (get_player_move_result h) as (Hret & _).
  rewrite Hcode in Hret.
  assert (Hret1 : fst (get_player_move h) = code).
  { rewrite Hret. destruct (Z.eqb_spec code (prev_move h)); congruence. }
  assert (Hstep : exists h1, loop_body (v, h) =
      Done (if player_counter v =? cpu_counter v - 1
            then Vars CPU (moves v) (cpu_counter v) 0 (random v)
            else Vars PLAYER (moves v) (cpu_counter v)
                      (player_counter v + 1) (random v), h1)).
  { rewrite (player_turn_unfold v h Hgs). cbv zeta. rewrite Hret1.
    apply Z.eqb_neq in Hnz as ->. unfold load. rewrite Hload. cbn [rbind].
    rewrite Z.eqb_refl. rewrite (u16_small (cpu_counter v - 1)) by lia.
    destruct (player_counter v =? cpu_counter v - 1) eqn:E.
    - eexists. reflexivity.
    - apply Z.eqb_neq in E. rewrite u16_small by lia. eexists. reflexivity. }
  destruct Hstep as [h1 Hstep]. exists h1. split; [exact Hstep|].
  destruct (iteration_devices _ _ _ _ Hstep) as (Din & Dpos & _ & Dprev & _).
  rewrite Hgs in Dpos, Dprev. change (PLAYER =? PLAYER) with true in *.
  cbn [orb] in Dpos. cbv iota in Dpos, Dprev.
  rewrite Hcode in Dprev. auto.
Qed.

Lemma replay_from (v0 : vars) (d : nat) : forall (j : nat) (h : hw),
  1 <= cpu_counter v0 < 65536 ->
  cpu_counter v0 = Z.of_nat (j + S d) ->
  prev_move h = 0 ->
  (forall i, (i <= d)%nat ->
     moves v0 !! (j + i)%nat = Some (window_code (sample_at h (2 * i))) /\
     window_code (sample_at h (2 * i)) <> 0) ->
  (forall i, (i < d)%nat -> window_code (sample_at h (2 * i + 1)) = 0) ->
  exists h' : hw,
    run (2 * d + 1)
        (Vars PLAYER (moves v0) (cpu_counter v0) (Z.of_nat j) (random v0), h)
    = Done (Vars CPU (moves v0) (cpu_counter v0) 0 (random v0), h') /\
    adc_in h' = adc_in h /\
    adc_pos h' = (adc_pos h + (2 * d + 1))%nat.
Proof.
  induction d as [|d IH]; intros j h Hcc Hk Hprev Hpress Hrel.
  - destruct (Hpress O ltac:(lia)) as [Hload Hnz].
    rewrite Nat.add_0_r in Hload. rewrite sample_at_0 in Hload, Hnz.
    destruct (player_press_step
                (Vars PLAYER (moves v0) (cpu_counter v0) (Z.of_nat j) (random v0))
                h _ eq_refl eq_refl Hnz) as (h1 & Hstep & Hin & Hpos & _).
    + rewrite Hprev. congruence.
    + cbn [moves player_counter]. rewrite Nat2Z.id. exact Hload.
    + exact Hcc.
    + cbn [player_counter cpu_counter]. lia.
    + cbn [player_counter cpu_counter moves random] in Hstep.
      replace (Z.of_nat j =? cpu_counter v0 - 1) with true in Hstep
        by (symmetry; apply Z.eqb_eq; lia).
      exists h1. cbn [Nat.mul Nat.add run]. rewrite Hstep. cbn [rbind].
      split; [reflexivity|]. split; [exact Hin | lia].
  - destruct (Hpress O ltac:(lia)) as [Hload Hnz].
    rewrite Nat.add_0_r in Hload. rewrite sample_at_0 in Hload, Hnz.
    destruct (player_press_step
                (Vars PLAYER (moves v0) (cpu_counter v0) (Z.of_nat j) (random v0))
                h _ eq_refl eq_refl Hnz) as (h1 & Hstep & Hin1 & Hpos1 & Hp1).
    + rewrite Hprev. congruence.
    + cbn [moves player_counter]. rewrite Nat2Z.id. exact Hload.
    + exact Hcc.
    + cbn [player_counter cpu_counter]. lia.
    + cbn [player_counter cpu_counter moves random] in Hstep.
      replace (Z.of_nat j =? cpu_counter v0 - 1) with false in Hstep
        by (symmetry; apply Z.eqb_neq; lia).
      replace (Z.of_nat j + 1) with (Z.of_nat (S j)) in Hstep by lia.
      destruct (player_release_step
                  (Vars PLAYER (moves v0) (cpu_counter v0) (Z.of_nat (S j))
                        (random v0)) h1 eq_refl)
        as (h2 & Hstep2 & Hin2 & Hpos2 & Hp2).
      { rewrite <- sample_at_0, (sample_at_shift h h1 O Hin1 Hpos1).
        exact (Hrel O ltac:(lia)). }
      assert (Hshift : forall i, sample_at h2 i = sample_at h (S (S i))).
      { intros i. rewrite (sample_at_shift h1 h2 i Hin2 Hpos2).
        apply (sample_at_shift h h1 (S i) Hin1 Hpos1). }
      destruct (IH (S j) h2 Hcc) as (h' & Hrun & Hin' & Hpos').
      * rewrite Hk. f_equal. lia.
      * exact Hp2.
      * intros i Hi. rewrite Hshift.
        replace (S j + i)%nat with (j + S i)%nat by lia.
        replace (S (S (2 * i))) with (2 * S i)%nat by lia.
        apply Hpress. lia.
      * intros i Hi. rewrite Hshift.
        replace (S (S (2 * i + 1))) with (2 * S i + 1)%nat by lia.
        apply Hrel. lia.
      * exists h'.
        replace (2 * S d + 1)%nat with (1 + (1 + (2 * d + 1)))%nat by lia.
        rewrite run_add. change (run 1 ?s) with (rbind (loop_body s) Done).
        rewrite Hstep. cbn [rbind].
        rewrite run_add. change (run 1 ?s) with (rbind (loop_body s) Done).
        rewrite Hstep2. cbn [rbind].
        split; [exact Hrun|]. split; [congruence | lia].
Qed.

(** A correct replay is accepted.  In the player's turn with
    [player_counter = 0], a sequence of [k] stored moves and no button
    remembered, if the player presses the [k] moves in order, each press a
    sample in the window of the move and each followed by a sample outside
    every window, then after [2k - 1] iterations the state is CPU with
    [player_counter] back at 0 and the sequence intact: the round is won
    and the next CPU turn extends the sequence. *)
Theorem correct_replay_advances (v : vars) (h : hw) (k : nat) :
  gamestate v = PLAYER ->
  player_counter v = 0 ->
  cpu_counter v = Z.of_nat k -> (1 <= k)%nat -> Z.of_nat k < 65536 ->
  prev_move h = 0 ->
  (forall i, (i < k)%nat ->
     moves v !! i = Some (window_code (sample_at h (2 * i))) /\
     window_code (sample_at h (2 * i)) <> 0) ->
  (forall i, (S i < k)%nat -> window_code (sample_at h (2 * i + 1)) = 0) ->
  exists h' : hw,
    run (2 * k - 1) (v, h) =
      Done (Vars CPU (moves v) (cpu_counter v) 0 (random v), h') /\
    adc_pos h' = (adc_pos h + (2 * k - 1))%nat.
Proof.
  intros Hgs Hpc Hcc Hk Hk16 Hprev Hpress Hrel.
  destruct (replay_from v (k - 1) O h) as (h' & Hrun & _ & Hpos);
    try assumption; try lia.
  - intros i Hi. apply Hpress. lia.
  - intros i Hi. apply Hrel. lia.
  - exists h'. replace (2 * k - 1)%nat with (2 * (k - 1) + 1)%nat by lia.
    split; [|exact Hpos].
    destruct v as [g m c p r]. cbn in Hgs, Hpc. subst g p. exact Hrun.
Qed.

Lemma correct_replay_advances_witness :
  let v := Vars PLAYER ([1; 8] ++ replicate 98 0) 2 0 77 in
  let h := Hw 0 77 (stream_of [510; 0; 720]) O 0 0 1 [] in
  exists h' : hw,
    run 3 (v, h) = Done (Vars CPU ([1; 8] ++ replicate 98 0) 2 0 77, h').
Proof.
  intros v h.
  destruct (correct_replay_advances v h 2) as (h' & Hrun & _);
    try reflexivity; try lia.
  - intros i Hi. destruct i as [|[|i]]; [| | lia];
      (split; [reflexivity | vm_compute; discriminate]).
  - intros i Hi. destruct i as [|i]; [reflexivity | lia].
  - exists h'. exact Hrun.
Defined.
